(** * coffee-market-pipeline: feature construction, time split and metrics

    A shallow embedding of [features.py] ([buildFeatureMatrix]) and
    [train_eval.py] ([timeSplit] and the metrics of [main]), together with
    the pandas / scikit-learn operations these functions call.

    Numbers.  A [float64] input value is a dyadic rational, so the raw
    [value] column holds [option Q] ([None] is what
    [pd.to_numeric(errors="coerce")] leaves as NaN).  Everything computed
    from it ([np.log], differences, means, square roots) lives in the real
    numbers: a float cell is an [option R] whose [None] is NaN.  Rounding
    error of binary64 arithmetic is not modelled. *)

From Stdlib Require Import List ZArith QArith Qround Qreals Reals Lia Psatz Bool.
From Stdlib Require Import Sorting.Sorted Sorting.Permutation.
Import ListNotations.

Close Scope Q_scope.
Close Scope R_scope.
Open Scope nat_scope.

Set Implicit Arguments.

(** ** Exceptions and results *)

(** [ValueError] and [KeyError] are what pandas raises in the code paths
    below; [ConfigError] belongs to the error taxonomy of the design
    document and is raised nowhere in the sources. *)
Inductive exn : Type :=
| ValueError
| KeyError
| ConfigError.

Inductive result (A : Type) : Type :=
| Ok (a : A)
| Err (e : exn).

Arguments Ok {A} a.
Arguments Err {A} e.

Definition bind {A B : Type} (r : result A) (k : A -> result B) : result B :=
  match r with
  | Ok a => k a
  | Err e => Err e
  end.

Notation "x <- r ;; k" := (bind r (fun x => k))
  (at level 61, r at next level, right associativity).

(** The [for] loops of the source: a left-to-right fold whose body may raise. *)
Fixpoint foldM {A B : Type} (f : B -> A -> result B) (l : list A) (b : B)
  : result B :=
  match l with
  | [] => Ok b
  | a :: l' => b' <- f b a ;; foldM f l' b'
  end.

(** ** pandas Series of floats *)

Module Pandas.

Definition Series := list (option R).

(** Positional access; outside the series there is nothing, i.e. NaN. *)
Definition cell (s : Series) (t : nat) : option R := nth t s None.

Definition cellZ (s : Series) (i : Z) : option R :=
  if (i <? 0)%Z then None else cell s (Z.to_nat i).

Definition notna (c : option R) : bool :=
  match c with Some _ => true | None => false end.

(** NaN-propagating subtraction of two cells. *)
Definition sub (a b : option R) : option R :=
  match a, b with
  | Some x, Some y => Some (x - y)%R
  | _, _ => None
  end.

(** [Series.shift(periods)]: the value at position [t] is the one that was
    at [t - periods]; positions that fall outside are NaN.  [periods] may be
    zero or negative. *)
Definition shift (periods : Z) (s : Series) : Series :=
  map (fun t => cellZ s (Z.of_nat t - periods)) (seq 0 (length s)).

(** [Series.diff()]: [s - s.shift(1)]. *)
Definition diff (s : Series) : Series :=
  map (fun t => sub (cell s t) (cell (shift 1 s) t)) (seq 0 (length s)).

(** *** Rolling windows *)

(** A [Rolling] object; [Series.rolling(window=w)] refuses a negative
    window ("window must be an integer 0 or greater") and takes
    [min_periods = window]. *)
Record Rolling : Type := { r_series : Series; r_window : nat }.

Definition rolling (s : Series) (window : Z) : result Rolling :=
  if (window <? 0)%Z then Err ValueError
  else Ok {| r_series := s; r_window := Z.to_nat window |}.

(** The fixed window ending at [t]: positions [max (t+1-w) 0 .. t]. *)
Definition window_at (w : nat) (s : Series) (t : nat) : list (option R) :=
  let stop := S t in
  let start := stop - w in
  firstn (stop - start) (skipn start s).

(** The non-NaN observations of a window. *)
Fixpoint observations (xs : list (option R)) : list R :=
  match xs with
  | [] => []
  | Some x :: r => x :: observations r
  | None :: r => observations r
  end.

Definition Rsum (xs : list R) : R := fold_right Rplus 0%R xs.

Definition mean (xs : list R) : R := (Rsum xs / INR (length xs))%R.

(** Sum of squared deviations from the mean. *)
Definition ssqdm (xs : list R) : R :=
  Rsum (map (fun x => ((x - mean xs) * (x - mean xs))%R) xs).

(** [roll_mean]: a value when [nobs >= min_periods] and [nobs > 0]. *)
Definition calc_mean (minp : nat) (obs : list R) : option R :=
  if (minp <=? length obs) && (0 <? length obs)
  then Some (mean obs) else None.

(** [roll_var] with [ddof = 1], then the square root: a value when
    [nobs >= min_periods] and [nobs > ddof]. *)
Definition calc_std (minp : nat) (obs : list R) : option R :=
  if (minp <=? length obs) && (1 <? length obs)
  then Some (sqrt (ssqdm obs / INR (length obs - 1))) else None.

Definition rolling_apply (f : nat -> list R -> option R) (r : Rolling)
  : Series :=
  map (fun t => f (r_window r)
                  (observations (window_at (r_window r) (r_series r) t)))
      (seq 0 (length (r_series r))).

Definition rolling_mean : Rolling -> Series := rolling_apply calc_mean.
Definition rolling_std : Rolling -> Series := rolling_apply calc_std.

End Pandas.

Import Pandas.

(** ** Data frames *)

(** The input table of [buildFeatureMatrix]: one record per row, with its
    index label, its [date] (days since an epoch; [None] is NaT) and its
    [value] as [pd.to_numeric(errors="coerce")] reads it.  The table is
    taken to hold these two columns only, as the tables written by
    [store_sqlite.py] do. *)
Record RawRow : Type :=
  { raw_index : Z; raw_date : option Z; raw_value : option Q }.

Definition RawFrame := list RawRow.

(** Names of the float columns.  [r_lag k] is the column [f"r_lag_{k}"],
    and likewise for the two rolling statistics. *)
Inductive column : Type :=
| col_value
| col_log_price
| col_log_return
| r_lag (k : Z)
| r_roll_mean (w : Z)
| r_roll_std (w : Z)
| y_next_return.

Definition column_eqb (a b : column) : bool :=
  match a, b with
  | col_value, col_value => true
  | col_log_price, col_log_price => true
  | col_log_return, col_log_return => true
  | r_lag j, r_lag k => (j =? k)%Z
  | r_roll_mean j, r_roll_mean k => (j =? k)%Z
  | r_roll_std j, r_roll_std k => (j =? k)%Z
  | y_next_return, y_next_return => true
  | _, _ => false
  end.

(** A frame keeps its columns in insertion order, as pandas does. *)
Record DataFrame : Type :=
  { index : list Z;
    date : list (option Z);
    columns : list (column * Series) }.

Definition nrows (df : DataFrame) : nat := length (index df).

Fixpoint lookup (c : column) (cs : list (column * Series)) : option Series :=
  match cs with
  | [] => None
  | (c', s) :: r => if column_eqb c c' then Some s else lookup c r
  end.

(** [df[c]]: a missing column is a [KeyError]. *)
Definition getitem (df : DataFrame) (c : column) : result Series :=
  match lookup c (columns df) with
  | Some s => Ok s
  | None => Err KeyError
  end.

(** [df[c] = s]: an existing column is overwritten in place, a new one is
    appended. *)
Fixpoint assign (c : column) (s : Series) (cs : list (column * Series))
  : list (column * Series) :=
  match cs with
  | [] => [(c, s)]
  | (c', s') :: r =>
      if column_eqb c c' then (c, s) :: r else (c', s') :: assign c s r
  end.

Definition setitem (df : DataFrame) (c : column) (s : Series) : DataFrame :=
  {| index := index df; date := date df; columns := assign c s (columns df) |}.

(** *** [sort_values("date")]

    Ascending, NaT last, the NaT rows in input order.  pandas sorts with
    numpy's default [quicksort], which is not stable: how it leaves rows of
    equal date is not specified.  Here they keep their input order, which
    is one of the outcomes a sort by date may have.  Every theorem below
    that compares tables is stated for dates without repetition, where the
    date order is unique, or holds for whichever order the ties come out
    in. *)
Definition date_leb (a b : option Z) : bool :=
  match a, b with
  | Some x, Some y => (x <=? y)%Z
  | _, None => true
  | None, Some _ => false
  end.

Fixpoint insert_row (r : RawRow) (l : RawFrame) : RawFrame :=
  match l with
  | [] => [r]
  | r' :: l' =>
      if date_leb (raw_date r) (raw_date r') then r :: l
      else r' :: insert_row r l'
  end.

Fixpoint sort_values (df : RawFrame) : RawFrame :=
  match df with
  | [] => []
  | r :: df' => insert_row r (sort_values df')
  end.

(** [df.dropna(subset=["value"])] *)
Definition dropna_value (df : RawFrame) : RawFrame :=
  filter (fun r => match raw_value r with Some _ => true | None => false end)
         df.

(** [df[df["value"] > 0]]; a comparison with NaN is false. *)
Definition positive (r : RawRow) : bool :=
  match raw_value r with
  | Some q => (0 <? Qnum q)%Z
  | None => false
  end.

(** Lines 38-43: the sorted table restricted to its positive values. *)
Definition clean (df : RawFrame) : RawFrame :=
  filter positive (dropna_value (sort_values df)).

(** [.astype(float)] *)
Definition astype_float (v : option Q) : option R := option_map Q2R v.

(** The frame as it stands after line 43. *)
Definition frame_of (df : RawFrame) : DataFrame :=
  {| index := map raw_index df;
     date := map raw_date df;
     columns := [(col_value, map (fun r => astype_float (raw_value r)) df)] |}.

(** [np.log] over a series; it is only ever applied to positive values. *)
Definition np_log (s : Series) : Series := map (option_map ln) s.

(** Body of the loop over [lags] (lines 48-49). *)
Definition add_lag (df : DataFrame) (lag : Z) : result DataFrame :=
  lr <- getitem df col_log_return ;;
  Ok (setitem df (r_lag lag) (shift lag lr)).

(** Body of the loop over [windows] (lines 51-53). *)
Definition add_window (df : DataFrame) (w : Z) : result DataFrame :=
  lr <- getitem df col_log_return ;;
  ro <- rolling lr w ;;
  let df := setitem df (r_roll_mean w) (rolling_mean ro) in
  lr <- getitem df col_log_return ;;
  ro <- rolling lr w ;;
  Ok (setitem df (r_roll_std w) (rolling_std ro)).

(** Lines 45-55: the table with every feature and the target, before any
    row is dropped. *)
Definition add_features (df : DataFrame) (lags windows : list Z)
  : result DataFrame :=
  v <- getitem df col_value ;;
  let df := setitem df col_log_price (np_log v) in
  lp <- getitem df col_log_price ;;
  let df := setitem df col_log_return (diff lp) in
  df <- foldM add_lag lags df ;;
  df <- foldM add_window windows df ;;
  lr <- getitem df col_log_return ;;
  Ok (setitem df y_next_return (shift (-1) lr)).

(** *** [dropna().reset_index(drop=True)] *)

Definition notnat (d : option Z) : bool :=
  match d with Some _ => true | None => false end.

(** Row [t] has no missing value in any column. *)
Definition row_complete (df : DataFrame) (t : nat) : bool :=
  notnat (nth t (date df) None)
  && forallb (fun cs => notna (cell (snd cs) t)) (columns df).

(** Positions of the rows that [dropna] keeps. *)
Definition complete_rows (df : DataFrame) : list nat :=
  filter (row_complete df) (seq 0 (nrows df)).

Definition take {A : Type} (d : A) (l : list A) (pos : list nat) : list A :=
  map (fun t => nth t l d) pos.

Definition take_rows (df : DataFrame) (pos : list nat) : DataFrame :=
  {| index := take 0%Z (index df) pos;
     date := take None (date df) pos;
     columns := map (fun cs => (fst cs, take None (snd cs) pos))
                    (columns df) |}.

Definition dropna (df : DataFrame) : DataFrame :=
  take_rows df (complete_rows df).

Definition reset_index (df : DataFrame) : DataFrame :=
  {| index := map Z.of_nat (seq 0 (nrows df));
     date := date df;
     columns := columns df |}.

(** *** [buildFeatureMatrix] *)

Definition buildFeatureMatrix (df : RawFrame) (lags windows : list Z)
  : result DataFrame :=
  let df := frame_of (clean df) in
  df <- add_features df lags windows ;;
  Ok (reset_index (dropna df)).

(** ** [train_eval.py] *)

(** Python's [round] on a float: the nearest integer, ties to the even one. *)
Definition py_round (x : Q) : Z :=
  let fl := Qfloor x in
  match Qcompare (x - inject_Z fl) (1 # 2) with
  | Lt => fl
  | Gt => (fl + 1)%Z
  | Eq => if Z.even fl then fl else (fl + 1)%Z
  end.

(** Python slicing: where a bound [k] of [l[:k]] or [l[k:]] falls in a list
    of [n] elements.  A negative bound counts from the end; both clip. *)
Definition slice_bound (n : nat) (k : Z) : nat :=
  if (k <? 0)%Z then Z.to_nat (Z.max 0 (Z.of_nat n + k))
  else Nat.min (Z.to_nat k) n.

Definition head_rows (m : nat) (df : DataFrame) : DataFrame :=
  {| index := firstn m (index df);
     date := firstn m (date df);
     columns := map (fun cs => (fst cs, firstn m (snd cs))) (columns df) |}.

Definition tail_rows (m : nat) (df : DataFrame) : DataFrame :=
  {| index := skipn m (index df);
     date := skipn m (date df);
     columns := map (fun cs => (fst cs, skipn m (snd cs))) (columns df) |}.

(** [df.iloc[:k]] and [df.iloc[k:]] *)
Definition iloc_to (k : Z) (df : DataFrame) : DataFrame :=
  head_rows (slice_bound (nrows df) k) df.

Definition iloc_from (k : Z) (df : DataFrame) : DataFrame :=
  tail_rows (slice_bound (nrows df) k) df.

(** [Series.max()] and [Series.min()] of a date column: NaT is skipped, and
    a column without any date gives NaT. *)
Fixpoint date_max (l : list (option Z)) : option Z :=
  match l with
  | [] => None
  | None :: r => date_max r
  | Some d :: r =>
      match date_max r with
      | Some m => Some (Z.max d m)
      | None => Some d
      end
  end.

Fixpoint date_min (l : list (option Z)) : option Z :=
  match l with
  | [] => None
  | None :: r => date_min r
  | Some d :: r =>
      match date_min r with
      | Some m => Some (Z.min d m)
      | None => Some d
      end
  end.

Section TimeSplit.

(** [float_mul n x] is the product [n * x] of an [int] and a [float] as
    binary64 evaluates it.  Rounding to nearest is monotone and keeps a
    row count as it is, so the product of [n >= 0] with a fraction
    strictly between 0 and 1 stays between 0 and [n].

    A [test_size] of type [Q] is a finite float, and the product is taken
    to be finite as well.  For NaN or an infinite product [round] raises on
    line 30; these definitions have no such path, and what is proved of
    [timeSplit] is proved of the calls that get past line 30. *)
Variable float_mul : Z -> Q -> Q.

Hypothesis float_mul_range :
  forall (n : Z) (x : Q),
    (0 <= n)%Z -> (0 < x)%Q -> (x < 1)%Q ->
    (0 <= float_mul n x)%Q /\ (float_mul n x <= inject_Z n)%Q.

(** [max(1, int(round(n * test_size)))] *)
Definition n_test (n : nat) (test_size : Q) : Z :=
  Z.max 1 (py_round (float_mul (Z.of_nat n) test_size)).

Definition timeSplit (df : DataFrame) (test_size : Q)
  : DataFrame * DataFrame :=
  let n := nrows df in
  let n_test := n_test n test_size in
  let train := iloc_to (Z.of_nat n - n_test) df in
  let test := iloc_from (Z.of_nat n - n_test) df in
  (train, test).

End TimeSplit.

(** The product without rounding error. *)
Definition exact_mul (n : Z) (x : Q) : Q := (inject_Z n * x)%Q.

(** *** Metrics (lines 74-75 of [main]) *)

Fixpoint zip_with {A B C : Type} (f : A -> B -> C) (l : list A) (l' : list B)
  : list C :=
  match l, l' with
  | a :: r, b :: r' => f a b :: zip_with f r r'
  | _, _ => []
  end.

(** scikit-learn checks that both arrays have the same, non-zero number of
    samples and raises [ValueError] otherwise. *)
Definition check_targets (y_true y_pred : list R) : result unit :=
  if (length y_true =? length y_pred) && (0 <? length y_true)
  then Ok tt else Err ValueError.

(** [np.average(np.abs(y_pred - y_true))] *)
Definition mean_absolute_error (y_true y_pred : list R) : result R :=
  _ <- check_targets y_true y_pred ;;
  Ok (mean (zip_with (fun t p => Rabs (p - t)) y_true y_pred)).

(** [np.average((y_true - y_pred) ** 2)] *)
Definition mean_squared_error (y_true y_pred : list R) : result R :=
  _ <- check_targets y_true y_pred ;;
  Ok (mean (zip_with (fun t p => ((t - p) * (t - p))%R) y_true y_pred)).

(** The two metrics of [main]: [(mae, rmse)], as real numbers; what
    binary64 rounding does to them is not modelled. *)
Definition evaluate (y_test y_pred : list R) : result (R * R) :=
  mae <- mean_absolute_error y_test y_pred ;;
  mse <- mean_squared_error y_test y_pred ;;
  Ok (mae, sqrt mse).

(** ** Notions used in the statements *)

(** *** The series of a cleaned table *)

(** The columns that lines 41-46 compute from the cleaned rows. *)
Definition values (rows : RawFrame) : Series :=
  map (fun r => astype_float (raw_value r)) rows.

Definition log_price (rows : RawFrame) : Series := np_log (values rows).

Definition log_return (rows : RawFrame) : Series := diff (log_price rows).

(** The [Rolling] object of [log_return] for a window [w]. *)
Definition roll (rows : RawFrame) (w : Z) : Rolling :=
  {| r_series := log_return rows; r_window := Z.to_nat w |}.

Definition mem (k : Z) (l : list Z) : bool := existsb (Z.eqb k) l.

Definition nonneg (w : Z) : bool := (0 <=? w)%Z.

(** What each column name holds once lines 45-55 have run. *)
Definition expected_column (rows : RawFrame) (lags windows : list Z)
  (c : column) : option Series :=
  match c with
  | col_value => Some (values rows)
  | col_log_price => Some (log_price rows)
  | col_log_return => Some (log_return rows)
  | r_lag k =>
      if mem k lags then Some (shift k (log_return rows)) else None
  | r_roll_mean w =>
      if mem w windows then Some (rolling_mean (roll rows w)) else None
  | r_roll_std w =>
      if mem w windows then Some (rolling_std (roll rows w)) else None
  | y_next_return => Some (shift (-1) (log_return rows))
  end.

(** Column names are never repeated inside a frame. *)
Definition distinct_names (cs : list (column * Series)) : Prop :=
  NoDup (map fst cs).

(** The value and the log-return at an offset of the cleaned table, as
    plain real numbers. *)
Definition value_at (rows : RawFrame) (t : nat) : R :=
  match cell (values rows) t with
  | Some v => v
  | None => 0%R
  end.

Definition log_return_at (rows : RawFrame) (t : nat) : R :=
  (ln (value_at rows t) - ln (value_at rows (t - 1)))%R.

(** The log-returns of the [w] positions that end at [t]. *)
Definition returns_window (rows : RawFrame) (w t : nat) : list R :=
  map (log_return_at rows) (seq (S t - w) w).

(** Sample standard deviation with Bessel's correction, written out. *)
Definition sample_std (xs : list R) (w : Z) : R :=
  sqrt (Rsum (map (fun x => (x - Rsum xs / IZR w) * (x - Rsum xs / IZR w))%R
                  xs)
        / (IZR w - 1)).

(** *** Validated series *)

(** Every row carries a positive value: what line 43 leaves. *)
Definition all_positive (rows : RawFrame) : Prop :=
  forall r, In r rows -> positive r = true.

Fixpoint ascending_from (d : Z) (l : list (option Z)) : bool :=
  match l with
  | [] => true
  | Some e :: r => (d <? e)%Z && ascending_from e r
  | None :: _ => false
  end.

(** Every date is present and strictly later than the one before. *)
Definition strictly_ascending (l : list (option Z)) : bool :=
  match l with
  | [] => true
  | Some d :: r => ascending_from d r
  | None :: _ => false
  end.

(** A validated series: positive values, strictly increasing dates. *)
Definition validated (df : RawFrame) : bool :=
  forallb positive df && strictly_ascending (map raw_date df).

(** Orders on rows and on dates: not later than (NaT last), and strictly
    earlier with both dates present. *)
Definition date_le (a b : RawRow) : Prop :=
  date_leb (raw_date a) (raw_date b) = true.

Definition odate_le (a b : option Z) : Prop := date_leb a b = true.

Definition date_lt (a b : RawRow) : Prop :=
  exists x y, raw_date a = Some x /\ raw_date b = Some y /\ (x < y)%Z.

(** All dates present, in ascending order. *)
Definition ascending_dates (l : list (option Z)) : Prop :=
  exists ds, l = map Some ds /\ Sorted Z.le ds.

(** *** Complete rows *)

(** Row [t] of a cleaned table of [n] rows has its log-return, every lag,
    every rolling statistic and its target. *)
Definition complete_at (n : nat) (lags windows : list Z) (t : nat) : bool :=
  (1 <=? t) && (S t <? n)
  && forallb (fun k => (1 <=? Z.of_nat t - k)%Z
                       && (Z.of_nat t - k <? Z.of_nat n)%Z) lags
  && forallb (fun w => (2 <=? Z.to_nat w) && (Z.to_nat w <=? t)) windows.

Definition Zmax_list (l : list Z) : Z := fold_right Z.max 0%Z l.

(** The first offset at which every feature of a cleaned table is defined:
    a lag [k] needs [log_return[t-k]], hence [t >= k+1]; a window [w] needs
    the [w] log-returns that end at [t], hence [t >= w]. *)
Definition first_complete (lags windows : list Z) : nat :=
  Z.to_nat (Z.max (Zmax_list lags + 1) (Zmax_list windows)).

(** The first offset as the design document gives it. *)
Definition spec_first_offset (lags : list Z) : nat :=
  Z.to_nat (Z.max 1 (Zmax_list lags)).

(** *** Train and test *)

(** The latest train date is strictly earlier than the earliest test date;
    a part without any date has neither (NaT), and a comparison with NaT
    is false. *)
Definition train_before_test (train test : DataFrame) : Prop :=
  exists a b,
    date_max (date train) = Some a /\
    date_min (date test) = Some b /\
    (a < b)%Z.

(** *** Sample tables *)

Definition row (i d : Z) (q : Q) : RawRow :=
  {| raw_index := i; raw_date := Some d; raw_value := Some q |}.

(** Five month starts of 2024 with their prices. *)
Definition series5 : RawFrame :=
  [ row 0 19723 (180 # 1); row 1 19754 (1895 # 10); row 2 19783 (186 # 1);
    row 3 19814 (2021 # 10); row 4 19844 (1987 # 10) ].

(** The same five rows as a table might hold them, out of order. *)
Definition shuffled5 : RawFrame :=
  [ row 3 19814 (2021 # 10); row 0 19723 (180 # 1); row 4 19844 (1987 # 10);
    row 2 19783 (186 # 1); row 1 19754 (1895 # 10) ].

(** The first day of the twenty months from January 2020. *)
Definition month_starts : list Z :=
  [ 18262; 18293; 18322; 18353; 18383; 18414; 18444; 18475; 18506; 18536;
    18567; 18597; 18628; 18659; 18687; 18718; 18748; 18779; 18809;
    18840 ]%Z.

(** Twenty months, month [i] costing [100 * 1.01 ^ i]. *)
Definition series20 : RawFrame :=
  map (fun i => row (Z.of_nat i) (nth i month_starts 0%Z)
                    ((100 # 1) * Qpower (101 # 100) (Z.of_nat i))%Q)
      (seq 0 20).

(** A small feature table over the given dates, already indexed 0..m-1. *)
Definition table (ds : list Z) : DataFrame :=
  {| index := map Z.of_nat (seq 0 (length ds));
     date := map Some ds;
     columns := [(y_next_return, map (fun _ => Some 0%R) ds)] |}.

Definition table10 : DataFrame := table (firstn 10 month_starts).

Definition table2 : DataFrame := table [19723; 19754]%Z.

(** *** Columns of the returned table *)

(** The column names a call with [lags] and [windows] asks for. *)
Definition requested (lags windows : list Z) (c : column) : Prop :=
  match c with
  | r_lag k => In k lags
  | r_roll_mean w | r_roll_std w => In w windows
  | _ => True
  end.

(** ** [main] of [train_eval.py] *)

(** A list comprehension or a loop whose body may raise. *)
Fixpoint mapM {A B : Type} (f : A -> result B) (l : list A)
  : result (list B) :=
  match l with
  | [] => Ok []
  | a :: l' => b <- f a ;; bs <- mapM f l' ;; Ok (b :: bs)
  end.

(** [DataFrame.sort_values("date")] on a whole frame: the positions in
    date order (NaT last), then the rows taken in that order.  Rows of
    equal date keep their input order here; pandas does not promise it,
    and nothing below is proved that depends on it. *)
Fixpoint insert_pos (ds : list (option Z)) (p : nat) (l : list nat)
  : list nat :=
  match l with
  | [] => [p]
  | q :: l' =>
      if date_leb (nth p ds None) (nth q ds None) then p :: l
      else q :: insert_pos ds p l'
  end.

Definition argsort (ds : list (option Z)) : list nat :=
  fold_right (insert_pos ds) [] (seq 0 (length ds)).

Definition sort_frame (df : DataFrame) : DataFrame :=
  take_rows df (argsort (date df)).

(** The float columns of [drop_cols]; [date] is the fifth. *)
Definition drop_cols (c : column) : bool :=
  match c with
  | col_value | col_log_price | col_log_return | y_next_return => true
  | _ => false
  end.

(** [[c for c in df.columns if c not in drop_cols]] *)
Definition feature_columns (df : DataFrame) : list column :=
  filter (fun c => negb (drop_cols c)) (map fst (columns df)).

(** [df[cols]]: the named columns, in the order asked for. *)
Definition select (df : DataFrame) (cols : list column)
  : result (list Series) :=
  mapM (getitem df) cols.

(** scikit-learn refuses NaN in what it is given. *)
Definition finite (s : Series) : result (list R) :=
  mapM (fun c => match c with Some x => Ok x | None => Err ValueError end) s.

(** The checks of [fit] and [predict] on a matrix of [n] samples, held
    here column by column: at least one sample, at least one feature, no
    NaN. *)
Definition check_array (X : list Series) (n : nat)
  : result (list (list R)) :=
  if (n =? 0) || (length X =? 0) then Err ValueError else mapM finite X.

(** What [main] writes: the metrics record and the predictions table. *)
Record Metrics : Type :=
  { rows_total : nat;
    rows_train : nat;
    rows_test : nat;
    metric_mae : R;
    metric_rmse : R;
    test_period_start : option Z;
    test_period_end : option Z;
    n_features : nat;
    features_used : list column }.

Record Artifacts : Type :=
  { metrics : Metrics;
    pred_date : list (option Z);
    pred_y_true : list R;
    pred_y_pred : list R }.

Module TrainEval.

Section Main.

(** The product of [timeSplit], and the regression: [Ridge(alpha=1.0)] is
    kept abstract, a [fit] that builds some state from the feature columns
    and the targets and a [predict] that reads it. *)
Variable float_mul : Z -> Q -> Q.
Variable Model : Type.
Variable fit : list (list R) -> list R -> Model.
Variable predict : Model -> list (list R) -> list R.

(** Lines 57-98; [df] is the table that [read_csv] returns. *)
Definition main (df : DataFrame) (test_size : Q) : result Artifacts :=
  let df := sort_frame df in
  let feature_cols := feature_columns df in
  let train := fst (timeSplit float_mul df test_size) in
  let test := snd (timeSplit float_mul df test_size) in
  X_train <- select train feature_cols ;;
  y_train <- getitem train y_next_return ;;
  X_test <- select test feature_cols ;;
  y_test <- getitem test y_next_return ;;
  X_train <- check_array X_train (nrows train) ;;
  y_train <- finite y_train ;;
  let model := fit X_train y_train in
  X_test <- check_array X_test (nrows test) ;;
  let y_pred := predict model X_test in
  y_test <- finite y_test ;;
  m <- evaluate y_test y_pred ;;
  Ok {| metrics :=
          {| rows_total := nrows df;
             rows_train := nrows train;
             rows_test := nrows test;
             metric_mae := fst m;
             metric_rmse := snd m;
             test_period_start := date_min (date test);
             test_period_end := date_max (date test);
             n_features := length feature_cols;
             features_used := feature_cols |};
        pred_date := date test;
        pred_y_true := y_test;
        pred_y_pred := y_pred |}.

End Main.

End TrainEval.

(** A frame as pandas holds it: every column as long as the index. *)
Definition well_formed (df : DataFrame) : Prop :=
  length (date df) = nrows df /\
  forall c s, In (c, s) (columns df) -> length s = nrows df.

(** A regression that predicts the mean of the training targets, whatever
    the features. *)
Definition mean_fit (X : list (list R)) (y : list R) : R := mean y.

Definition mean_predict (m : R) (X : list (list R)) : list R :=
  match X with
  | [] => []
  | col :: _ => map (fun _ => m) col
  end.

(** A feature table of four rows with one lag feature. *)
Definition features4 : DataFrame :=
  {| index := [0; 1; 2; 3]%Z;
     date := map Some [19783; 19814; 19844; 19875]%Z;
     columns :=
       [ (col_value, [Some 186; Some 202; Some 199; Some 205]%R);
         (r_lag 1, [Some 1; Some 2; Some 3; Some 4]%R);
         (y_next_return, [Some 2; Some 3; Some 4; Some 6]%R) ] |}.

(** The feature columns asked for by [lags] and [windows]. *)
Definition feature_requested (lags windows : list Z) (c : column) : Prop :=
  match c with
  | r_lag k => In k lags
  | r_roll_mean w | r_roll_std w => In w windows
  | _ => False
  end.

(** *** Tables with repeated dates *)

(** Every date present, no date twice. *)
Definition distinct_dates (l : RawFrame) : Prop :=
  NoDup (map raw_date l) /\ Forall (fun r => raw_date r <> None) l.

(** Lines 41-58: what [buildFeatureMatrix] does with the table once line 38
    has put it in date order, whichever way rows of equal date came out. *)
Definition after_sorting (sorted : RawFrame) (lags windows : list Z)
  : result DataFrame :=
  let df := frame_of (filter positive (dropna_value sorted)) in
  df <- add_features df lags windows ;;
  Ok (reset_index (dropna df)).

(** A row that stands for a position outside the table. *)
Definition no_row : RawRow :=
  {| raw_index := 0; raw_date := None; raw_value := None |}.

(** Two prices recorded for 1 January 2024 and one for 1 February, and the
    same three rows with the first two exchanged. *)
Definition tied3 : RawFrame :=
  [ row 0 19723 (180 # 1); row 1 19723 (190 # 1); row 2 19754 (200 # 1) ].

Definition tied3' : RawFrame :=
  [ row 1 19723 (190 # 1); row 0 19723 (180 # 1); row 2 19754 (200 # 1) ].

(** [series5] with a row without a value, dated like one of the five, and a
    row with a zero price in between. *)
Definition dirty7 : RawFrame :=
  [ row 0 19723 (180 # 1);
    {| raw_index := 5; raw_date := Some 19754%Z; raw_value := None |};
    row 1 19754 (1895 # 10);
    row 6 19760 (0 # 1);
    row 2 19783 (186 # 1); row 3 19814 (2021 # 10); row 4 19844 (1987 # 10) ].

(** * Properties *)

(** ** The library operations on small inputs *)

Example shift_forward_and_back :
  shift 1 [Some 1%R; Some 2%R; Some 3%R] = [None; Some 1%R; Some 2%R] /\
  shift (-1) [Some 1%R; Some 2%R; Some 3%R] = [Some 2%R; Some 3%R; None] /\
  shift 0 [Some 1%R; Some 2%R; Some 3%R] = [Some 1%R; Some 2%R; Some 3%R].
Proof. repeat split. Qed.

Example window_positions :
  window_at 2 [None; Some 1%R; Some 2%R; Some 3%R] 3 = [Some 2%R; Some 3%R] /\
  window_at 2 [None; Some 1%R; Some 2%R; Some 3%R] 1 = [None; Some 1%R] /\
  window_at 3 [None; Some 1%R; Some 2%R; Some 3%R] 1 = [None; Some 1%R] /\
  window_at 0 [None; Some 1%R; Some 2%R; Some 3%R] 2 = [].
Proof. repeat split. Qed.

Example rolling_negative_window :
  rolling [Some 1%R] (-1) = Err ValueError.
Proof. reflexivity. Qed.

Example py_round_ties_to_even :
  py_round (1 # 2) = 0%Z /\ py_round (3 # 2) = 2%Z /\ py_round (5 # 2) = 2%Z /\
  py_round (27 # 10) = 3%Z /\ py_round (-3 # 2)%Q = (-2)%Z.
Proof. repeat split. Qed.

Example slice_bound_clips :
  slice_bound 3 2 = 2 /\ slice_bound 3 7 = 3 /\
  slice_bound 3 (-1) = 2 /\ slice_bound 3 (-5) = 0.
Proof. repeat split. Qed.

Example sort_values_nat_last :
  map raw_index
      (sort_values
         [ {| raw_index := 0; raw_date := None; raw_value := Some (1 # 1)%Q |};
           row 1 7 (1 # 1); row 2 3 (1 # 1); row 3 9 (2 # 1) ])
  = [2; 1; 3; 0]%Z.
Proof. reflexivity. Qed.

(** ** Series built position by position *)

Lemma nth_map_seq (A : Type) (f : nat -> A) (d : A) (n t : nat) :
  t < n -> nth t (map f (seq 0 n)) d = f t.
Proof.
  intros Ht.
  rewrite (nth_indep _ d (f 0)) by (rewrite length_map, length_seq; exact Ht).
  rewrite (map_nth f (seq 0 n) 0 t), seq_nth by exact Ht.
  reflexivity.
Qed.

Lemma cell_tabulate (f : nat -> option R) (n t : nat) :
  cell (map f (seq 0 n)) t = if t <? n then f t else None.
Proof.
  unfold cell. destruct (Nat.ltb_spec t n) as [Ht | Ht].
  - apply nth_map_seq; exact Ht.
  - apply nth_overflow. rewrite length_map, length_seq. exact Ht.
Qed.

Lemma cell_overflow (s : Series) (t : nat) : length s <= t -> cell s t = None.
Proof. intros H. unfold cell. apply nth_overflow; exact H. Qed.

Lemma length_shift (k : Z) (s : Series) : length (shift k s) = length s.
Proof. unfold shift. rewrite length_map, length_seq. reflexivity. Qed.

Lemma length_diff (s : Series) : length (diff s) = length s.
Proof. unfold diff. rewrite length_map, length_seq. reflexivity. Qed.

Lemma length_rolling_apply f (r : Rolling) :
  length (rolling_apply f r) = length (r_series r).
Proof. unfold rolling_apply. rewrite length_map, length_seq. reflexivity. Qed.

Lemma cell_shift (k : Z) (s : Series) (t : nat) :
  t < length s -> cell (shift k s) t = cellZ s (Z.of_nat t - k).
Proof.
  intros Ht. unfold shift. rewrite cell_tabulate.
  apply Nat.ltb_lt in Ht. rewrite Ht. reflexivity.
Qed.

Lemma cell_diff (s : Series) (t : nat) :
  cell (diff s) t =
  match t with
  | O => None
  | S p => sub (cell s t) (cell s p)
  end.
Proof.
  unfold diff. rewrite cell_tabulate.
  destruct (Nat.ltb_spec t (length s)) as [Ht | Ht].
  - rewrite cell_shift by exact Ht. unfold cellZ.
    destruct t as [| p].
    + simpl. destruct (cell s 0); reflexivity.
    + replace (Z.of_nat (S p) - 1)%Z with (Z.of_nat p) by lia.
      destruct (Z.ltb_spec (Z.of_nat p) 0); [lia |].
      rewrite Nat2Z.id. reflexivity.
  - destruct t as [| p]; [reflexivity |].
    rewrite (cell_overflow s) by exact Ht. reflexivity.
Qed.

(** ** Columns of a frame *)

Lemma column_eqb_eq (a b : column) : column_eqb a b = true <-> a = b.
Proof.
  destruct a, b; simpl; split; intros H;
    try reflexivity; try discriminate;
    try (apply Z.eqb_eq in H; subst; reflexivity);
    try (injection H as ->; apply Z.eqb_refl).
Qed.

Lemma column_eqb_refl (a : column) : column_eqb a a = true.
Proof. apply column_eqb_eq. reflexivity. Qed.

Lemma column_eqb_neq (a b : column) : a <> b -> column_eqb a b = false.
Proof.
  intros H. destruct (column_eqb a b) eqn:E; [| reflexivity].
  apply column_eqb_eq in E. contradiction.
Qed.

Lemma lookup_assign (c c0 : column) (s : Series) cs :
  lookup c (assign c0 s cs) =
  if column_eqb c c0 then Some s else lookup c cs.
Proof.
  induction cs as [| [c' s'] r IH]; simpl.
  - reflexivity.
  - destruct (column_eqb c0 c') eqn:E0; simpl.
    + apply column_eqb_eq in E0. subst c'.
      destruct (column_eqb c c0); reflexivity.
    + destruct (column_eqb c c') eqn:E1.
      * apply column_eqb_eq in E1. subst c'.
        rewrite column_eqb_neq; [reflexivity |].
        intros ->. rewrite column_eqb_refl in E0. discriminate.
      * exact IH.
Qed.

Lemma assign_names_in c s cs x :
  In x (map fst (assign c s cs)) -> x = c \/ In x (map fst cs).
Proof.
  induction cs as [| [c' s'] r IH]; simpl.
  - intros [H | []]. left; symmetry; exact H.
  - destruct (column_eqb c c') eqn:E; simpl.
    + apply column_eqb_eq in E. subst c'. intros [H | H]; auto.
    + intros [H | H]; auto. destruct (IH H); auto.
Qed.

Lemma assign_distinct c s cs :
  distinct_names cs -> distinct_names (assign c s cs).
Proof.
  unfold distinct_names.
  induction cs as [| [c' s'] r IH]; simpl; intros Hnd.
  - constructor; [intros [] | constructor].
  - inversion Hnd as [| ? ? Hnotin Hr]; subst.
    destruct (column_eqb c c') eqn:E; simpl.
    + apply column_eqb_eq in E. subst c'. constructor; assumption.
    + constructor; [| apply IH; exact Hr].
      intros Hin. apply assign_names_in in Hin. destruct Hin as [-> | Hin].
      * rewrite column_eqb_refl in E. discriminate.
      * contradiction.
Qed.

Lemma lookup_in c s cs : lookup c cs = Some s -> In (c, s) cs.
Proof.
  induction cs as [| [c' s'] r IH]; simpl; [discriminate |].
  destruct (column_eqb c c') eqn:E.
  - apply column_eqb_eq in E. subst c'. intros [= ->]. left; reflexivity.
  - intros H. right. apply IH; exact H.
Qed.

Lemma in_lookup c s cs :
  distinct_names cs -> In (c, s) cs -> lookup c cs = Some s.
Proof.
  unfold distinct_names.
  induction cs as [| [c' s'] r IH]; simpl; intros Hnd Hin; [contradiction |].
  inversion Hnd as [| ? ? Hnotin Hr]; subst.
  destruct Hin as [[= -> ->] | Hin].
  - rewrite column_eqb_refl. reflexivity.
  - destruct (column_eqb c c') eqn:E.
    + apply column_eqb_eq in E. subst c'. exfalso. apply Hnotin.
      change c with (fst (c, s)). apply in_map; exact Hin.
    + apply IH; assumption.
Qed.

(** A test on every column is a test on every name that can be looked up. *)
Lemma forallb_columns (p : Series -> bool) cs :
  distinct_names cs ->
  (forallb (fun x => p (snd x)) cs = true <->
   forall c s, lookup c cs = Some s -> p s = true).
Proof.
  intros Hnd. rewrite forallb_forall. split.
  - intros H c s Hl. apply (H (c, s)). apply lookup_in; exact Hl.
  - intros H [c s] Hin. simpl. apply (H c). apply in_lookup; assumption.
Qed.

(** ** The table before rows are dropped *)

Lemma getitem_lookup df c s :
  lookup c (columns df) = Some s -> getitem df c = Ok s.
Proof. intros H. unfold getitem. rewrite H. reflexivity. Qed.

Lemma fold_add_lag (lr : Series) (lags : list Z) :
  forall df,
    lookup col_log_return (columns df) = Some lr ->
    exists df',
      foldM add_lag lags df = Ok df' /\
      index df' = index df /\ date df' = date df /\
      (distinct_names (columns df) -> distinct_names (columns df')) /\
      forall c,
        lookup c (columns df') =
        match c with
        | r_lag k =>
            if mem k lags then Some (shift k lr) else lookup c (columns df)
        | _ => lookup c (columns df)
        end.
Proof.
  induction lags as [| lag lags IH]; intros df Hlr.
  - exists df. simpl. repeat split; auto. intros c. destruct c; reflexivity.
  - simpl. unfold add_lag at 1. rewrite (getitem_lookup _ _ Hlr). simpl.
    set (df1 := setitem df (r_lag lag) (shift lag lr)).
    assert (Hlr1 : lookup col_log_return (columns df1) = Some lr).
    { unfold df1. simpl. rewrite lookup_assign. simpl. exact Hlr. }
    destruct (IH df1 Hlr1) as (df' & Hf & Hi & Hd & Hn & Hc).
    exists df'. repeat split; auto.
    + intros H. apply Hn. unfold df1. simpl. apply assign_distinct; exact H.
    + intros c. rewrite Hc. unfold df1. simpl.
      destruct c; try (rewrite lookup_assign; reflexivity).
      rewrite lookup_assign. simpl.
      destruct (Z.eqb_spec k lag) as [-> | Hne]; simpl.
      * destruct (mem lag lags); reflexivity.
      * reflexivity.
Qed.

Lemma add_window_ok (lr : Series) df (w : Z) :
  lookup col_log_return (columns df) = Some lr ->
  nonneg w = true ->
  add_window df w =
  Ok (setitem
        (setitem df (r_roll_mean w)
           (rolling_mean {| r_series := lr; r_window := Z.to_nat w |}))
        (r_roll_std w)
        (rolling_std {| r_series := lr; r_window := Z.to_nat w |})).
Proof.
  intros Hlr Hw. unfold nonneg in Hw. apply Z.leb_le in Hw.
  unfold add_window. rewrite (getitem_lookup _ _ Hlr). simpl.
  unfold rolling. destruct (Z.ltb_spec w 0); [lia |]. simpl.
  unfold getitem. simpl. rewrite lookup_assign. simpl. rewrite Hlr.
  simpl. reflexivity.
Qed.

Lemma add_window_negative (lr : Series) df (w : Z) :
  lookup col_log_return (columns df) = Some lr ->
  nonneg w = false ->
  add_window df w = Err ValueError.
Proof.
  intros Hlr Hw. unfold nonneg in Hw. apply Z.leb_gt in Hw.
  unfold add_window. rewrite (getitem_lookup _ _ Hlr). simpl.
  unfold rolling. destruct (Z.ltb_spec w 0); [| lia]. reflexivity.
Qed.

Lemma fold_add_window (lr : Series) (windows : list Z) :
  forall df,
    lookup col_log_return (columns df) = Some lr ->
    forallb nonneg windows = true ->
    exists df',
      foldM add_window windows df = Ok df' /\
      index df' = index df /\ date df' = date df /\
      (distinct_names (columns df) -> distinct_names (columns df')) /\
      forall c,
        lookup c (columns df') =
        match c with
        | r_roll_mean w =>
            if mem w windows
            then Some (rolling_mean
                         {| r_series := lr; r_window := Z.to_nat w |})
            else lookup c (columns df)
        | r_roll_std w =>
            if mem w windows
            then Some (rolling_std
                         {| r_series := lr; r_window := Z.to_nat w |})
            else lookup c (columns df)
        | _ => lookup c (columns df)
        end.
Proof.
  induction windows as [| w windows IH]; intros df Hlr Hnn.
  - exists df. simpl. repeat split; auto. intros c. destruct c; reflexivity.
  - simpl in Hnn. apply andb_prop in Hnn. destruct Hnn as [Hw Hnn].
    simpl. rewrite (add_window_ok _ _ Hlr Hw). simpl.
    match goal with |- context [foldM add_window windows ?d] => set (df1 := d) end.
    assert (Hlr1 : lookup col_log_return (columns df1) = Some lr).
    { unfold df1. simpl. rewrite !lookup_assign. simpl. exact Hlr. }
    destruct (IH df1 Hlr1 Hnn) as (df' & Hf & Hi & Hd & Hn & Hc).
    exists df'. repeat split; auto.
    + intros H. apply Hn. unfold df1. simpl.
      apply assign_distinct, assign_distinct; exact H.
    + intros c. rewrite Hc. unfold df1. simpl.
      destruct c; try (rewrite !lookup_assign; reflexivity).
      * rewrite !lookup_assign. simpl.
        destruct (Z.eqb_spec w0 w) as [-> | Hne]; simpl.
        -- destruct (mem w windows); reflexivity.
        -- reflexivity.
      * rewrite !lookup_assign. simpl.
        destruct (Z.eqb_spec w0 w) as [-> | Hne]; simpl.
        -- destruct (mem w windows); reflexivity.
        -- reflexivity.
Qed.

Lemma fold_add_window_negative (lr : Series) (windows : list Z) :
  forall df,
    lookup col_log_return (columns df) = Some lr ->
    forallb nonneg windows = false ->
    foldM add_window windows df = Err ValueError.
Proof.
  induction windows as [| w windows IH]; intros df Hlr Hneg.
  - discriminate.
  - simpl in Hneg. simpl. destruct (nonneg w) eqn:Hw.
    + rewrite (add_window_ok _ _ Hlr Hw). simpl. apply IH.
      * simpl. rewrite !lookup_assign. simpl. exact Hlr.
      * exact Hneg.
    + rewrite (add_window_negative _ _ Hlr Hw). reflexivity.
Qed.

(** With no negative window the feature loops run to the end, and every
    column holds what [expected_column] says. *)
Lemma add_features_ok (rows : RawFrame) (lags windows : list Z) :
  forallb nonneg windows = true ->
  exists pre,
    add_features (frame_of rows) lags windows = Ok pre /\
    index pre = map raw_index rows /\
    date pre = map raw_date rows /\
    distinct_names (columns pre) /\
    forall c, lookup c (columns pre) = expected_column rows lags windows c.
Proof.
  intros Hnn. unfold add_features.
  unfold getitem at 1. simpl. fold (values rows).
  unfold getitem at 1. simpl. fold (log_price rows).
  fold (log_return rows).
  set (df0 := setitem _ col_log_return _).
  assert (Hlr0 : lookup col_log_return (columns df0) = Some (log_return rows))
    by reflexivity.
  assert (Hnd0 : distinct_names (columns df0)).
  { unfold df0, distinct_names. simpl.
    repeat constructor; simpl; intuition discriminate. }
  destruct (fold_add_lag lags df0 Hlr0) as (df1 & Hf1 & Hi1 & Hd1 & Hn1 & Hc1).
  rewrite Hf1. cbn [bind].
  assert (Hlr1 : lookup col_log_return (columns df1) = Some (log_return rows)).
  { rewrite Hc1. exact Hlr0. }
  destruct (fold_add_window windows df1 Hlr1 Hnn)
    as (df2 & Hf2 & Hi2 & Hd2 & Hn2 & Hc2).
  rewrite Hf2. cbn [bind].
  assert (Hlr2 : lookup col_log_return (columns df2) = Some (log_return rows)).
  { rewrite Hc2. exact Hlr1. }
  rewrite Hlr2. cbn [bind].
  eexists. split; [reflexivity |]. simpl.
  rewrite Hi2, Hi1, Hd2, Hd1. repeat split; try reflexivity.
  - apply assign_distinct. auto.
  - intros c. rewrite lookup_assign.
    destruct c; simpl; rewrite ?Hc2, ?Hc1; try reflexivity;
      match goal with |- context [mem ?k ?l] => destruct (mem k l) end;
      reflexivity.
Qed.

Lemma add_features_negative (rows : RawFrame) (lags windows : list Z) :
  forallb nonneg windows = false ->
  add_features (frame_of rows) lags windows = Err ValueError.
Proof.
  intros Hneg. unfold add_features.
  unfold getitem at 1. simpl. unfold getitem at 1. simpl.
  set (df0 := setitem _ col_log_return _).
  assert (Hlr0 : exists lr, lookup col_log_return (columns df0) = Some lr)
    by (eexists; reflexivity).
  destruct Hlr0 as [lr Hlr0].
  destruct (fold_add_lag lags df0 Hlr0) as (df1 & Hf1 & _ & _ & _ & Hc1).
  rewrite Hf1. cbn [bind].
  rewrite (@fold_add_window_negative lr); [reflexivity | | exact Hneg].
  rewrite Hc1. exact Hlr0.
Qed.

(** ** Cell by cell: the series of a cleaned table *)

Lemma length_values rows : length (values rows) = length rows.
Proof. unfold values. apply length_map. Qed.

Lemma length_log_price rows : length (log_price rows) = length rows.
Proof. unfold log_price, np_log. rewrite length_map. apply length_values. Qed.

Lemma length_log_return rows : length (log_return rows) = length rows.
Proof. unfold log_return. rewrite length_diff. apply length_log_price. Qed.

Lemma cell_values rows t :
  all_positive rows -> t < length rows ->
  cell (values rows) t = Some (value_at rows t).
Proof.
  intros Hpos Ht. unfold value_at.
  destruct (cell (values rows) t) as [v |] eqn:E; [reflexivity | exfalso].
  unfold cell, values in E.
  assert (Hin : In (nth t (map (fun r => astype_float (raw_value r)) rows) None)
                   (map (fun r => astype_float (raw_value r)) rows)).
  { apply nth_In. rewrite length_map. exact Ht. }
  rewrite E in Hin. apply in_map_iff in Hin. destruct Hin as (r & Hr & Hin).
  apply Hpos in Hin. unfold positive in Hin.
  destruct (raw_value r); discriminate.
Qed.

Lemma cell_log_price rows t :
  all_positive rows -> t < length rows ->
  cell (log_price rows) t = Some (ln (value_at rows t)).
Proof.
  intros Hpos Ht. unfold log_price, np_log, cell.
  rewrite (nth_indep _ None (option_map ln None))
    by (rewrite length_map, length_values; exact Ht).
  rewrite map_nth. fold (cell (values rows) t).
  rewrite (cell_values Hpos Ht). reflexivity.
Qed.

(** [log_return] is missing at the first row and nowhere else. *)
Lemma cell_log_return rows t :
  all_positive rows ->
  cell (log_return rows) t =
  if (1 <=? t) && (t <? length rows)
  then Some (log_return_at rows t) else None.
Proof.
  intros Hpos. unfold log_return. rewrite cell_diff.
  destruct t as [| p]; [reflexivity |].
  destruct (Nat.ltb_spec (S p) (length rows)) as [Ht | Ht]; simpl.
  - rewrite !cell_log_price by (auto; lia). simpl.
    unfold log_return_at. simpl. rewrite Nat.sub_0_r. reflexivity.
  - rewrite (cell_overflow (log_price rows))
      by (rewrite length_log_price; exact Ht).
    reflexivity.
Qed.

Lemma cellZ_log_return rows (i : Z) :
  all_positive rows ->
  cellZ (log_return rows) i =
  if ((1 <=? i) && (i <? Z.of_nat (length rows)))%Z
  then Some (log_return_at rows (Z.to_nat i)) else None.
Proof.
  intros Hpos. unfold cellZ. destruct (Z.ltb_spec i 0) as [Hi | Hi].
  - destruct (Z.leb_spec 1 i); [lia | reflexivity].
  - rewrite (cell_log_return _ Hpos).
    destruct (Nat.leb_spec 1 (Z.to_nat i)), (Z.leb_spec 1 i); try lia;
      simpl; [| reflexivity].
    destruct (Nat.ltb_spec (Z.to_nat i) (length rows)),
             (Z.ltb_spec i (Z.of_nat (length rows))); try lia; reflexivity.
Qed.

(** *** Windows *)

Lemma length_observations xs : length (observations xs) <= length xs.
Proof.
  induction xs as [| [x |] r IH]; simpl; lia.
Qed.

Lemma observations_some (f : nat -> R) (l : list nat) :
  observations (map (fun i => Some (f i)) l) = map f l.
Proof.
  induction l as [| a l IH]; simpl; [reflexivity |].
  rewrite IH. reflexivity.
Qed.

Lemma series_tabulated (s : Series) :
  s = map (cell s) (seq 0 (length s)).
Proof.
  apply (nth_ext _ _ None None).
  - rewrite length_map, length_seq. reflexivity.
  - intros t Ht. rewrite nth_map_seq by exact Ht. reflexivity.
Qed.

Lemma firstn_seq (k : nat) : forall a m, firstn k (seq a m) = seq a (Nat.min k m).
Proof.
  induction k as [| k IH]; intros a m; [reflexivity |].
  destruct m as [| m]; [reflexivity |].
  simpl. rewrite IH. reflexivity.
Qed.

Lemma window_at_cells (w : nat) (s : Series) (t : nat) :
  t < length s ->
  window_at w s t = map (cell s) (seq (S t - w) (S t - (S t - w))).
Proof.
  intros Ht. unfold window_at.
  rewrite (series_tabulated s) at 1.
  rewrite skipn_map, firstn_map, skipn_seq, firstn_seq.
  f_equal. f_equal. lia.
Qed.

(** A full window of log-returns: it must not reach back to row 0. *)
Lemma observations_full rows (w t : nat) :
  all_positive rows -> w <= t -> t < length rows ->
  observations (window_at w (log_return rows) t) = returns_window rows w t.
Proof.
  intros Hpos Hw Ht.
  rewrite window_at_cells by (rewrite length_log_return; exact Ht).
  replace (S t - (S t - w)) with w by lia.
  unfold returns_window. rewrite <- observations_some. f_equal.
  apply map_ext_in. intros i Hi. apply in_seq in Hi.
  rewrite (cell_log_return _ Hpos).
  destruct (Nat.leb_spec 1 i); [| lia].
  destruct (Nat.ltb_spec i (length rows)); [| lia]. reflexivity.
Qed.

(** A window that reaches row 0 has fewer than [w] observations. *)
Lemma observations_short rows (w t : nat) :
  all_positive rows -> t < w -> t < length rows ->
  length (observations (window_at w (log_return rows) t)) < w.
Proof.
  intros Hpos Hw Ht.
  rewrite window_at_cells by (rewrite length_log_return; exact Ht).
  replace (S t - w) with 0 by lia. rewrite Nat.sub_0_r.
  change (seq 0 (S t)) with (0 :: seq 1 t). simpl map.
  rewrite (cell_log_return _ Hpos). simpl.
  eapply Nat.le_lt_trans; [apply length_observations |].
  rewrite length_map, length_seq. exact Hw.
Qed.

Lemma length_returns_window rows w t : length (returns_window rows w t) = w.
Proof. unfold returns_window. rewrite length_map, length_seq. reflexivity. Qed.

Lemma cell_rolling_mean rows (w : Z) (t : nat) :
  all_positive rows ->
  cell (rolling_mean (roll rows w)) t =
  if (1 <=? Z.to_nat w) && (Z.to_nat w <=? t) && (t <? length rows)
  then Some (mean (returns_window rows (Z.to_nat w) t)) else None.
Proof.
  intros Hpos. unfold rolling_mean, rolling_apply, roll. simpl.
  rewrite cell_tabulate, length_log_return.
  destruct (Nat.ltb_spec t (length rows)) as [Ht | Ht];
    [| rewrite andb_false_r; reflexivity].
  rewrite andb_true_r. unfold calc_mean.
  destruct (Nat.leb_spec (Z.to_nat w) t) as [Hw | Hw].
  - rewrite (observations_full Hpos Hw Ht), length_returns_window.
    rewrite Nat.leb_refl, andb_true_r. simpl.
    destruct (Z.to_nat w); reflexivity.
  - pose proof (observations_short Hpos Hw Ht) as Hs.
    destruct (Nat.leb_spec (Z.to_nat w)
                (length (observations
                           (window_at (Z.to_nat w) (log_return rows) t))));
      [lia |].
    rewrite andb_false_r. reflexivity.
Qed.

Lemma cell_rolling_std rows (w : Z) (t : nat) :
  all_positive rows ->
  cell (rolling_std (roll rows w)) t =
  if (2 <=? Z.to_nat w) && (Z.to_nat w <=? t) && (t <? length rows)
  then Some (sqrt (ssqdm (returns_window rows (Z.to_nat w) t)
                   / INR (Z.to_nat w - 1)))
  else None.
Proof.
  intros Hpos. unfold rolling_std, rolling_apply, roll. simpl.
  rewrite cell_tabulate, length_log_return.
  destruct (Nat.ltb_spec t (length rows)) as [Ht | Ht];
    [| rewrite andb_false_r; reflexivity].
  rewrite andb_true_r. unfold calc_std.
  destruct (Nat.leb_spec (Z.to_nat w) t) as [Hw | Hw].
  - rewrite (observations_full Hpos Hw Ht), length_returns_window.
    rewrite Nat.leb_refl, andb_true_r. simpl.
    destruct (Z.to_nat w) as [| [| n]]; reflexivity.
  - pose proof (observations_short Hpos Hw Ht) as Hs.
    destruct (Nat.leb_spec (Z.to_nat w)
                (length (observations
                           (window_at (Z.to_nat w) (log_return rows) t))));
      [lia |].
    rewrite andb_false_r. reflexivity.
Qed.

(** ** Which rows are complete *)

Lemma mem_In (k : Z) (l : list Z) : mem k l = true <-> In k l.
Proof.
  unfold mem. rewrite existsb_exists. split.
  - intros (x & Hin & Hx). apply Z.eqb_eq in Hx. subst. exact Hin.
  - intros Hin. exists k. split; [exact Hin | apply Z.eqb_refl].
Qed.

Lemma notna_shift rows (k : Z) (t : nat) :
  all_positive rows -> t < length rows ->
  notna (cell (shift k (log_return rows)) t) =
  ((1 <=? Z.of_nat t - k)%Z && (Z.of_nat t - k <? Z.of_nat (length rows))%Z).
Proof.
  intros Hpos Ht.
  rewrite cell_shift by (rewrite length_log_return; exact Ht).
  rewrite (cellZ_log_return _ Hpos).
  destruct (_ && _); reflexivity.
Qed.

Section CompleteRows.

Variables (rows : RawFrame) (lags windows : list Z) (pre : DataFrame).

Hypothesis rows_positive : all_positive rows.
Hypothesis pre_date : date pre = map raw_date rows.
Hypothesis pre_names : distinct_names (columns pre).
Hypothesis pre_columns :
  forall c, lookup c (columns pre) = expected_column rows lags windows c.

Lemma columns_complete_iff (t : nat) :
  t < length rows ->
  (forallb (fun cs => notna (cell (snd cs) t)) (columns pre) = true <->
   complete_at (length rows) lags windows t = true).
Proof.
  intros Ht.
  rewrite (forallb_columns (fun s => notna (cell s t)) pre_names).
  unfold complete_at. rewrite !andb_true_iff, !forallb_forall. split.
  - intros H. repeat split.
    + specialize (H col_log_return _ (eq_trans (pre_columns _) eq_refl)).
      rewrite (cell_log_return _ rows_positive) in H.
      destruct (Nat.leb_spec 1 t); [reflexivity | discriminate].
    + specialize (H y_next_return _ (eq_trans (pre_columns _) eq_refl)).
      rewrite (notna_shift _ rows_positive Ht) in H.
      apply andb_prop in H. destruct H as [_ H]. apply Z.ltb_lt in H.
      apply Nat.ltb_lt. lia.
    + intros k Hk. apply mem_In in Hk.
      assert (Hc : lookup (r_lag k) (columns pre)
                   = Some (shift k (log_return rows))).
      { rewrite pre_columns. simpl. rewrite Hk. reflexivity. }
      specialize (H _ _ Hc).
      rewrite (notna_shift _ rows_positive Ht) in H. exact H.
    + intros w Hw. apply mem_In in Hw.
      assert (Hc : lookup (r_roll_std w) (columns pre)
                   = Some (rolling_std (roll rows w))).
      { rewrite pre_columns. simpl. rewrite Hw. reflexivity. }
      specialize (H _ _ Hc).
      rewrite (cell_rolling_std _ _ rows_positive) in H.
      destruct (Nat.leb_spec 2 (Z.to_nat w)); [| discriminate].
      destruct (Nat.leb_spec (Z.to_nat w) t); [reflexivity | discriminate].
  - intros [[[H1 H2] Hl] Hw] c s Hc.
    apply Nat.leb_le in H1. apply Nat.ltb_lt in H2.
    rewrite pre_columns in Hc.
    destruct c; simpl in Hc.
    + injection Hc as <-. rewrite (cell_values rows_positive Ht). reflexivity.
    + injection Hc as <-.
      rewrite (cell_log_price rows_positive Ht). reflexivity.
    + injection Hc as <-. rewrite (cell_log_return _ rows_positive).
      destruct (Nat.leb_spec 1 t); [| lia].
      destruct (Nat.ltb_spec t (length rows)); [reflexivity | lia].
    + destruct (mem k lags) eqn:Hk; [| discriminate].
      injection Hc as <-. rewrite (notna_shift _ rows_positive Ht).
      apply Hl. apply mem_In; exact Hk.
    + destruct (mem w windows) eqn:Hm; [| discriminate].
      injection Hc as <-. apply mem_In in Hm. specialize (Hw _ Hm).
      apply andb_prop in Hw. destruct Hw as [Hw2 Hwt].
      apply Nat.leb_le in Hw2. apply Nat.leb_le in Hwt.
      rewrite (cell_rolling_mean _ _ rows_positive).
      destruct (Nat.leb_spec 1 (Z.to_nat w)); [| lia].
      destruct (Nat.leb_spec (Z.to_nat w) t); [| lia].
      destruct (Nat.ltb_spec t (length rows)); [reflexivity | lia].
    + destruct (mem w windows) eqn:Hm; [| discriminate].
      injection Hc as <-. apply mem_In in Hm. specialize (Hw _ Hm).
      apply andb_prop in Hw. destruct Hw as [Hw2 Hwt].
      apply Nat.leb_le in Hw2. apply Nat.leb_le in Hwt.
      rewrite (cell_rolling_std _ _ rows_positive).
      destruct (Nat.leb_spec 2 (Z.to_nat w)); [| lia].
      destruct (Nat.leb_spec (Z.to_nat w) t); [| lia].
      destruct (Nat.ltb_spec t (length rows)); [reflexivity | lia].
    + injection Hc as <-. rewrite (notna_shift _ rows_positive Ht).
      apply andb_true_iff. split; [apply Z.leb_le | apply Z.ltb_lt]; lia.
Qed.

Lemma row_complete_spec (t : nat) :
  t < length rows ->
  row_complete pre t =
  notnat (nth t (map raw_date rows) None)
  && complete_at (length rows) lags windows t.
Proof.
  intros Ht. unfold row_complete. rewrite pre_date. f_equal.
  apply Bool.eq_iff_eq_true. apply columns_complete_iff; exact Ht.
Qed.

End CompleteRows.

(** ** Sorting by date *)

Lemma date_leb_total (a b : option Z) :
  date_leb a b = false -> date_leb b a = true.
Proof.
  destruct a as [x |], b as [y |]; simpl; try discriminate; try reflexivity.
  intros H. apply Z.leb_gt in H. apply Z.leb_le. lia.
Qed.

Lemma insert_row_perm (r : RawRow) (l : RawFrame) :
  Permutation (insert_row r l) (r :: l).
Proof.
  induction l as [| r' l IH]; simpl.
  - apply Permutation_refl.
  - destruct (date_leb (raw_date r) (raw_date r')).
    + apply Permutation_refl.
    + eapply Permutation_trans; [apply perm_skip, IH | apply perm_swap].
Qed.

Lemma sort_values_perm (df : RawFrame) : Permutation (sort_values df) df.
Proof.
  induction df as [| r df IH]; simpl.
  - apply Permutation_refl.
  - eapply Permutation_trans; [apply insert_row_perm | apply perm_skip, IH].
Qed.

Lemma insert_row_hdrel (a r : RawRow) (l : RawFrame) :
  date_le a r -> HdRel date_le a l -> HdRel date_le a (insert_row r l).
Proof.
  intros Har Hal. destruct l as [| r' l]; simpl.
  - constructor; exact Har.
  - destruct (date_leb (raw_date r) (raw_date r')).
    + constructor; exact Har.
    + constructor. inversion Hal; assumption.
Qed.

Lemma insert_row_sorted (r : RawRow) (l : RawFrame) :
  Sorted date_le l -> Sorted date_le (insert_row r l).
Proof.
  induction l as [| r' l IH]; simpl; intros Hs.
  - repeat constructor.
  - destruct (date_leb (raw_date r) (raw_date r')) eqn:E.
    + constructor; [exact Hs | constructor; exact E].
    + apply Sorted_inv in Hs. destruct Hs as [Hs Hhd].
      constructor; [apply IH; exact Hs |].
      apply insert_row_hdrel; [| exact Hhd].
      apply date_leb_total; exact E.
Qed.

Lemma sort_values_sorted (df : RawFrame) : Sorted date_le (sort_values df).
Proof.
  induction df as [| r df IH]; simpl.
  - constructor.
  - apply insert_row_sorted; exact IH.
Qed.

Lemma date_le_trans (a b c : RawRow) : date_le a b -> date_le b c -> date_le a c.
Proof.
  unfold date_le.
  destruct (raw_date a), (raw_date b), (raw_date c); simpl;
    try discriminate; try reflexivity.
  intros H1 H2. apply Z.leb_le in H1. apply Z.leb_le in H2.
  apply Z.leb_le. lia.
Qed.

Lemma sorted_strongly (l : RawFrame) :
  Sorted date_le l -> StronglySorted date_le l.
Proof.
  apply Sorted_StronglySorted. intros a b c. apply date_le_trans.
Qed.

Lemma ascending_from_strict (df : RawFrame) :
  forall r d,
    raw_date r = Some d ->
    ascending_from d (map raw_date df) = true ->
    StronglySorted date_lt (r :: df).
Proof.
  induction df as [| r' df IH]; intros r d Hr Ha.
  - repeat constructor.
  - simpl in Ha. destruct (raw_date r') as [e |] eqn:E; [| discriminate].
    apply andb_prop in Ha. destruct Ha as [Hlt Ha]. apply Z.ltb_lt in Hlt.
    pose proof (IH r' e E Ha) as Hs.
    constructor; [exact Hs |].
    assert (Hrr' : date_lt r r') by (exists d, e; auto).
    constructor; [exact Hrr' |].
    apply StronglySorted_inv in Hs. destruct Hs as [_ Hall].
    eapply Forall_impl; [| exact Hall].
    intros x (x1 & x2 & Hx1 & Hx2 & Hx). exists d, x2.
    rewrite E in Hx1. injection Hx1 as <-. repeat split; auto. lia.
Qed.

Lemma strictly_ascending_strict (df : RawFrame) :
  strictly_ascending (map raw_date df) = true -> StronglySorted date_lt df.
Proof.
  destruct df as [| r df]; [constructor |].
  simpl. destruct (raw_date r) as [d |] eqn:E; [| discriminate].
  apply ascending_from_strict; exact E.
Qed.

(** A table has one arrangement in strictly ascending date order. *)
Lemma sorted_perm_unique (l : RawFrame) :
  forall l',
    StronglySorted date_le l -> StronglySorted date_lt l' ->
    Permutation l l' -> l = l'.
Proof.
  induction l as [| a l IH]; intros l' Hs Hs' Hp.
  - apply Permutation_nil in Hp. subst. reflexivity.
  - destruct l' as [| b l'].
    + apply Permutation_sym, Permutation_nil in Hp. discriminate.
    + apply StronglySorted_inv in Hs. destruct Hs as [Hs Ha].
      apply StronglySorted_inv in Hs'. destruct Hs' as [Hs' Hb].
      rewrite Forall_forall in Ha, Hb.
      assert (Hab : a = b).
      { assert (Hina : In a (b :: l'))
          by (eapply Permutation_in; [exact Hp | left; reflexivity]).
        assert (Hinb : In b (a :: l))
          by (eapply Permutation_in;
              [apply Permutation_sym; exact Hp | left; reflexivity]).
        destruct Hina as [-> | Hina]; [reflexivity |].
        destruct Hinb as [-> | Hinb]; [reflexivity |].
        exfalso. specialize (Ha b Hinb).
        destruct (Hb a Hina) as (x & y & Hx & Hy & Hlt).
        unfold date_le in Ha. rewrite Hx, Hy in Ha. simpl in Ha.
        apply Z.leb_le in Ha. lia. }
      subst b. f_equal. apply IH; [exact Hs | exact Hs' |].
      apply Permutation_cons_inv in Hp. exact Hp.
Qed.

Lemma sort_values_unique (df df' : RawFrame) :
  Permutation df df' ->
  strictly_ascending (map raw_date df') = true ->
  sort_values df = df'.
Proof.
  intros Hp Hasc. apply sorted_perm_unique.
  - apply sorted_strongly, sort_values_sorted.
  - apply strictly_ascending_strict; exact Hasc.
  - eapply Permutation_trans; [apply sort_values_perm | exact Hp].
Qed.


(** *** Validated series *)

Lemma filter_all (A : Type) (p : A -> bool) (l : list A) :
  forallb p l = true -> filter p l = l.
Proof.
  induction l as [| a l IH]; simpl; [reflexivity |].
  intros H. apply andb_prop in H. destruct H as [Ha Hl].
  rewrite Ha, (IH Hl). reflexivity.
Qed.

Lemma validated_positive (df : RawFrame) :
  validated df = true -> all_positive df.
Proof.
  unfold validated. intros H. apply andb_prop in H. destruct H as [H _].
  intros r Hr. rewrite forallb_forall in H. apply H; exact Hr.
Qed.

(** Lines 38-43 change nothing in a validated series. *)
Lemma clean_validated (df : RawFrame) : validated df = true -> clean df = df.
Proof.
  intros H. pose proof (validated_positive _ H) as Hpos.
  unfold validated in H. apply andb_prop in H. destruct H as [Hp Hs].
  unfold clean. rewrite (sort_values_unique (Permutation_refl df) Hs).
  assert (Hd : dropna_value df = df).
  { apply filter_all. apply forallb_forall. intros r Hr. apply Hpos in Hr.
    unfold positive in Hr.
    destruct (raw_value r); [reflexivity | discriminate]. }
  rewrite Hd. apply filter_all; exact Hp.
Qed.

Lemma clean_positive (df : RawFrame) : all_positive (clean df).
Proof.
  intros r Hr. unfold clean in Hr. apply filter_In in Hr. apply Hr.
Qed.

(** ** The returned table *)

Lemma buildFeatureMatrix_inv (df : RawFrame) (lags windows : list Z) out :
  buildFeatureMatrix df lags windows = Ok out ->
  exists pre,
    add_features (frame_of (clean df)) lags windows = Ok pre /\
    out = reset_index (dropna pre) /\
    forallb nonneg windows = true /\
    index pre = map raw_index (clean df) /\
    date pre = map raw_date (clean df) /\
    distinct_names (columns pre) /\
    forall c,
      lookup c (columns pre) = expected_column (clean df) lags windows c.
Proof.
  unfold buildFeatureMatrix. intros H.
  destruct (forallb nonneg windows) eqn:Hnn.
  - destruct (@add_features_ok (clean df) lags windows Hnn)
      as (pre & Hpre & Hi & Hd & Hn & Hc).
    rewrite Hpre in H. simpl in H. injection H as <-.
    exists pre. repeat split; assumption.
  - rewrite (@add_features_negative (clean df) lags windows Hnn) in H.
    discriminate.
Qed.

Lemma nrows_pre (rows : RawFrame) (pre : DataFrame) :
  index pre = map raw_index rows -> nrows pre = length rows.
Proof. intros H. unfold nrows. rewrite H. apply length_map. Qed.

Lemma length_take (A : Type) (d : A) (l : list A) (pos : list nat) :
  length (take d l pos) = length pos.
Proof. unfold take. apply length_map. Qed.

Lemma nth_take (A : Type) (d : A) (l : list A) (pos : list nat) (i : nat) :
  i < length pos -> nth i (take d l pos) d = nth (nth i pos 0) l d.
Proof.
  intros Hi. unfold take.
  rewrite (nth_indep _ d (nth 0 l d)) by (rewrite length_map; exact Hi).
  apply (map_nth (fun t => nth t l d)).
Qed.

Lemma lookup_map_columns (g : Series -> Series) (c : column) cs :
  lookup c (map (fun x => (fst x, g (snd x))) cs) = option_map g (lookup c cs).
Proof.
  induction cs as [| [c' s] r IH]; simpl; [reflexivity |].
  destruct (column_eqb c c'); [reflexivity | exact IH].
Qed.

Lemma nrows_dropna (pre : DataFrame) :
  nrows (reset_index (dropna pre)) = length (complete_rows pre).
Proof.
  unfold nrows, reset_index. simpl. rewrite length_map, length_seq.
  unfold nrows, dropna. simpl. apply length_take.
Qed.

Lemma lookup_dropna (pre : DataFrame) (c : column) :
  lookup c (columns (reset_index (dropna pre))) =
  option_map (fun s => take None s (complete_rows pre))
             (lookup c (columns pre)).
Proof.
  simpl.
  apply (lookup_map_columns (fun s => take None s (complete_rows pre))).
Qed.

Lemma complete_rows_in (pre : DataFrame) (i : nat) :
  i < length (complete_rows pre) ->
  nth i (complete_rows pre) 0 < nrows pre /\
  row_complete pre (nth i (complete_rows pre) 0) = true.
Proof.
  intros Hi. pose proof (nth_In (complete_rows pre) 0 Hi) as Hin.
  unfold complete_rows in Hin at 2. apply filter_In in Hin.
  destruct Hin as [Hseq Hc]. apply in_seq in Hseq. split; [lia | exact Hc].
Qed.

(** C1.  For a validated series, every row of the returned table is a row
    [t] of the series whose [y_next_return] is the log-return of row [t+1]
    of the table before rows were dropped, that is
    [ln value[t+1] - ln value[t]]; the row's own log-return is
    [ln value[t] - ln value[t-1]]. *)
Theorem target_is_next_log_return
  (df : RawFrame) (lags windows : list Z) (out : DataFrame) :
  validated df = true ->
  buildFeatureMatrix df lags windows = Ok out ->
  exists (pre : DataFrame) (target own : Series),
    add_features (frame_of df) lags windows = Ok pre /\
    out = reset_index (dropna pre) /\
    lookup col_log_return (columns pre) = Some (log_return df) /\
    lookup y_next_return (columns out) = Some target /\
    lookup col_log_return (columns out) = Some own /\
    nrows out = length (complete_rows pre) /\
    forall i, i < nrows out ->
      let t := nth i (complete_rows pre) 0 in
      1 <= t /\ S t < length df /\
      nth i (date out) None = nth t (map raw_date df) None /\
      cell target i = cell (log_return df) (S t) /\
      cell target i
      = Some (ln (value_at df (S t)) - ln (value_at df t))%R /\
      cell own i
      = Some (ln (value_at df t) - ln (value_at df (t - 1)))%R.
Proof.
  intros Hv Hb.
  destruct (buildFeatureMatrix_inv _ _ _ Hb)
    as (pre & Hpre & Hout & Hnn & Hi & Hd & Hn & Hc).
  rewrite (clean_validated _ Hv) in *.
  pose proof (validated_positive _ Hv) as Hpos.
  exists pre, (take None (shift (-1) (log_return df)) (complete_rows pre)),
    (take None (log_return df) (complete_rows pre)).
  split; [exact Hpre |]. split; [exact Hout |].
  split; [rewrite Hc; reflexivity |].
  split; [rewrite Hout, lookup_dropna, Hc; reflexivity |].
  split; [rewrite Hout, lookup_dropna, Hc; reflexivity |].
  split; [rewrite Hout; apply nrows_dropna |].
  intros i Hlt t. rewrite Hout, nrows_dropna in Hlt.
  destruct (complete_rows_in pre Hlt) as [Htn Hrc]. fold t in Htn, Hrc.
  rewrite (nrows_pre _ _ Hi) in Htn.
  rewrite (@row_complete_spec df lags windows pre Hpos Hd Hn Hc t Htn) in Hrc.
  apply andb_prop in Hrc. destruct Hrc as [_ Hca].
  unfold complete_at in Hca. rewrite !andb_true_iff in Hca.
  destruct Hca as [[[H1 H2] _] _].
  apply Nat.leb_le in H1. apply Nat.ltb_lt in H2.
  assert (Hnext : cell (shift (-1) (log_return df)) t
                  = cell (log_return df) (S t)).
  { rewrite cell_shift by (rewrite length_log_return; exact Htn).
    unfold cellZ. destruct (Z.ltb_spec (Z.of_nat t - -1) 0); [lia |].
    f_equal. lia. }
  repeat split.
  - exact H1.
  - exact H2.
  - rewrite Hout. simpl. rewrite Hd. apply nth_take; exact Hlt.
  - unfold cell at 1. rewrite nth_take by exact Hlt. exact Hnext.
  - unfold cell at 1. rewrite nth_take by exact Hlt. fold t.
    fold (cell (shift (-1) (log_return df)) t).
    rewrite Hnext, (cell_log_return _ Hpos). simpl.
    destruct (Nat.ltb_spec (S t) (length df)); [| lia].
    unfold log_return_at. simpl. rewrite Nat.sub_0_r. reflexivity.
  - unfold cell at 1. rewrite nth_take by exact Hlt. fold t.
    fold (cell (log_return df) t). rewrite (cell_log_return _ Hpos).
    destruct (Nat.leb_spec 1 t); [| lia].
    destruct (Nat.ltb_spec t (length df)); [| lia]. reflexivity.
Qed.

Lemma target_is_next_log_return_witness :
  validated series5 = true /\
  exists out target,
    buildFeatureMatrix series5 [1%Z] [2%Z] = Ok out /\
    nrows out = 2 /\
    lookup y_next_return (columns out) = Some target /\
    cell target 0
    = Some (ln (value_at series5 3) - ln (value_at series5 2))%R.
Proof.
  split; [reflexivity |].
  destruct (buildFeatureMatrix series5 [1%Z] [2%Z]) as [out | e] eqn:Hb;
    [| vm_compute in Hb; discriminate].
  destruct (@target_is_next_log_return series5 [1%Z] [2%Z] out
              eq_refl Hb)
    as (pre & target & own & Hpre & Hout & Hlr & Ht & Ho & Hn & Hrows).
  assert (Hk : complete_rows pre = [2; 3]).
  { lazy in Hpre. injection Hpre as <-. reflexivity. }
  exists out, target. split; [reflexivity |].
  rewrite Hk in Hn, Hrows. split; [exact Hn |]. split; [exact Ht |].
  assert (H0 : 0 < nrows out) by (rewrite Hn; simpl; lia).
  destruct (Hrows 0 H0) as (_ & _ & _ & _ & Hcell & _).
  exact Hcell.
Defined.

(** ** Offsets of the complete rows *)

Lemma Zmax_list_nonneg (l : list Z) : (0 <= Zmax_list l)%Z.
Proof. induction l as [| a l IH]; simpl; lia. Qed.

Lemma Zmax_list_le (l : list Z) (m : Z) :
  (Zmax_list l <= m)%Z <-> (0 <= m)%Z /\ forall x, In x l -> (x <= m)%Z.
Proof.
  induction l as [| a l IH]; simpl.
  - split; [intros H; split; [exact H | intros x []] | intros [H _]; exact H].
  - rewrite Z.max_lub_iff, IH. split.
    + intros [Ha [Hm Hl]]. split; [exact Hm |].
      intros x [<- | Hx]; [exact Ha | apply Hl; exact Hx].
    + intros [Hm Hl]. split; [apply Hl; left; reflexivity |].
      split; [exact Hm |]. intros x Hx. apply Hl. right; exact Hx.
Qed.

Lemma complete_at_interval (n : nat) (lags windows : list Z) (t : nat) :
  (forall k, In k lags -> (1 <= k)%Z) ->
  (forall w, In w windows -> (2 <= w)%Z) ->
  complete_at n lags windows t
  = (first_complete lags windows <=? t) && (t <? n - 1).
Proof.
  intros Hlags Hwin. apply Bool.eq_iff_eq_true.
  unfold complete_at, first_complete.
  rewrite !andb_true_iff, !forallb_forall.
  rewrite !Nat.leb_le, !Nat.ltb_lt.
  pose proof (Zmax_list_nonneg lags) as Hl0.
  pose proof (Zmax_list_nonneg windows) as Hw0.
  split.
  - intros [[[H1 H2] Hl] Hw]. split; [| lia].
    assert (Hml : (Zmax_list lags <= Z.of_nat t - 1)%Z).
    { apply Zmax_list_le. split; [lia |]. intros k Hk.
      specialize (Hl k Hk). apply andb_prop in Hl. destruct Hl as [Hl _].
      apply Z.leb_le in Hl. lia. }
    assert (Hmw : (Zmax_list windows <= Z.of_nat t)%Z).
    { apply Zmax_list_le. split; [lia |]. intros w Hw'.
      specialize (Hw w Hw'). apply andb_prop in Hw. destruct Hw as [_ Hw].
      apply Nat.leb_le in Hw. specialize (Hwin w Hw'). lia. }
    lia.
  - intros [Hf Hn].
    assert (Hml : (Zmax_list lags <= Z.of_nat t - 1)%Z) by lia.
    assert (Hmw : (Zmax_list windows <= Z.of_nat t)%Z) by lia.
    apply Zmax_list_le in Hml. apply Zmax_list_le in Hmw.
    destruct Hml as [_ Hml]. destruct Hmw as [_ Hmw].
    repeat split.
    + lia.
    + lia.
    + intros k Hk. specialize (Hml k Hk). specialize (Hlags k Hk).
      apply andb_true_iff. split; [apply Z.leb_le | apply Z.ltb_lt]; lia.
    + intros w Hw. specialize (Hmw w Hw). specialize (Hwin w Hw).
      apply andb_true_iff. split; apply Nat.leb_le; lia.
Qed.

Lemma filter_nothing (A : Type) (p : A -> bool) (l : list A) :
  (forall x, In x l -> p x = false) -> filter p l = [].
Proof.
  induction l as [| a l IH]; simpl; intros H; [reflexivity |].
  rewrite (H a) by (left; reflexivity). apply IH.
  intros x Hx. apply H. right; exact Hx.
Qed.

Lemma filter_range (a b n : nat) :
  b <= n ->
  filter (fun t => (a <=? t) && (t <? b)) (seq 0 n) = seq a (b - a).
Proof.
  intros Hb. destruct (le_lt_dec a b) as [Hab | Hab].
  - replace n with (a + ((b - a) + (n - b))) by lia.
    rewrite !seq_app, !filter_app. simpl.
    rewrite (@filter_nothing _ _ (seq 0 a)), (@filter_nothing _ _ (seq (a + (b - a)) (n - b))).
    + rewrite app_nil_r. simpl. apply filter_all. apply forallb_forall.
      intros t Ht. apply in_seq in Ht.
      apply andb_true_iff. split; [apply Nat.leb_le | apply Nat.ltb_lt]; lia.
    + intros t Ht. apply in_seq in Ht. apply andb_false_iff. right.
      apply Nat.ltb_ge. lia.
    + intros t Ht. apply in_seq in Ht. apply andb_false_iff. left.
      apply Nat.leb_gt. lia.
  - replace (b - a) with 0 by lia. simpl. apply filter_nothing.
    intros t Ht. apply in_seq in Ht.
    destruct (Nat.leb_spec a t); [| reflexivity].
    simpl. apply Nat.ltb_ge. lia.
Qed.

Lemma validated_dates (df : RawFrame) (t : nat) :
  validated df = true -> t < length df ->
  notnat (nth t (map raw_date df) None) = true.
Proof.
  unfold validated. intros H Ht. apply andb_prop in H. destruct H as [_ H].
  assert (Hall : forall d, In d (map raw_date df) -> notnat d = true).
  { clear Ht. destruct df as [| r df]; [intros d [] |].
    simpl in H. simpl. destruct (raw_date r) as [d0 |]; [| discriminate].
    intros d [<- | Hd]; [reflexivity |].
    revert d0 H d Hd. generalize (map raw_date df) as l.
    induction l as [| [e |] l IH]; simpl; intros d0 H d Hd.
    - contradiction.
    - apply andb_prop in H. destruct H as [_ H].
      destruct Hd as [<- | Hd]; [reflexivity | apply (IH e H d Hd)].
    - discriminate. }
  apply Hall. apply nth_In. rewrite length_map. exact Ht.
Qed.

(** For a validated series, positive lags and windows of at least 2, the
    complete rows are the offsets [first_complete .. n-2]. *)
Lemma complete_rows_interval
  (df : RawFrame) (lags windows : list Z) (pre : DataFrame) :
  validated df = true ->
  (forall k, In k lags -> (1 <= k)%Z) ->
  (forall w, In w windows -> (2 <= w)%Z) ->
  add_features (frame_of df) lags windows = Ok pre ->
  complete_rows pre
  = seq (first_complete lags windows)
        (length df - 1 - first_complete lags windows).
Proof.
  intros Hv Hlags Hwin Hpre.
  assert (Hnn : forallb nonneg windows = true).
  { apply forallb_forall. intros w Hw. specialize (Hwin w Hw).
    apply Z.leb_le. lia. }
  destruct (@add_features_ok df lags windows Hnn)
    as (pre' & Hpre' & Hi & Hd & Hn & Hc).
  rewrite Hpre in Hpre'. injection Hpre' as <-.
  pose proof (validated_positive _ Hv) as Hpos.
  unfold complete_rows. rewrite (nrows_pre _ _ Hi).
  rewrite <- (@filter_range _ (length df - 1) (length df)) by lia.
  apply filter_ext_in. intros t Ht. apply in_seq in Ht.
  assert (Htn : t < length df) by lia.
  rewrite (@row_complete_spec df lags windows pre Hpos Hd Hn Hc t Htn).
  rewrite (validated_dates _ Hv Htn). simpl.
  apply complete_at_interval; assumption.
Qed.

(** C3 (as amended).  For a validated series of [n] rows, positive lags and
    windows of at least 2, the rows in which the log-return, every lag,
    every rolling statistic and the target are defined are exactly the
    offsets from [max (max lags + 1) (max windows)] to [n - 2]; when that
    range is not empty its first row is at the former offset and its last
    at [n - 2]. *)
Theorem complete_rows_offsets
  (df : RawFrame) (lags windows : list Z) :
  validated df = true ->
  (forall k, In k lags -> (1 <= k)%Z) ->
  (forall w, In w windows -> (2 <= w)%Z) ->
  exists pre,
    add_features (frame_of (clean df)) lags windows = Ok pre /\
    complete_rows pre
    = seq (first_complete lags windows)
          (length df - 1 - first_complete lags windows) /\
    (first_complete lags windows + 2 <= length df ->
     hd_error (complete_rows pre) = Some (first_complete lags windows) /\
     last (complete_rows pre) 0 = length df - 2).
Proof.
  intros Hv Hlags Hwin.
  assert (Hnn : forallb nonneg windows = true).
  { apply forallb_forall. intros w Hw. specialize (Hwin w Hw).
    apply Z.leb_le. lia. }
  rewrite (clean_validated _ Hv).
  destruct (@add_features_ok df lags windows Hnn) as (pre & Hpre & _).
  exists pre. split; [exact Hpre |].
  rewrite (@complete_rows_interval df lags windows pre Hv Hlags Hwin Hpre).
  split; [reflexivity |]. intros Hlen.
  set (f := first_complete lags windows) in *.
  replace (length df - 1 - f) with (S (length df - 2 - f)) by lia.
  split; [reflexivity |].
  rewrite seq_S, last_last. lia.
Qed.

Lemma complete_rows_offsets_witness :
  exists pre,
    add_features (frame_of (clean series5)) [1%Z] [2%Z] = Ok pre /\
    complete_rows pre = [2; 3] /\
    hd_error (complete_rows pre) = Some 2 /\
    last (complete_rows pre) 0 = 3.
Proof.
  assert (Hl : forall k, In k [1%Z] -> (1 <= k)%Z)
    by (intros k [<- | []]; lia).
  assert (Hw : forall w, In w [2%Z] -> (2 <= w)%Z)
    by (intros w [<- | []]; lia).
  destruct (@complete_rows_offsets series5 [1%Z] [2%Z] eq_refl Hl Hw)
    as (pre & Hpre & Hrows & Hends).
  exists pre. split; [exact Hpre |]. split; [exact Hrows |].
  apply Hends. simpl. lia.
Defined.

(** C3 as the design document has it fails: with [lags = [1]] and
    [windows = [2]] the row at offset [max(1, max(lags)) = 1] lacks
    [r_lag_1] (it would be the log-return of row 0), and the first complete
    row is at offset 2. *)
Lemma complete_rows_offsets_counterexample :
  exists pre,
    add_features (frame_of (clean series5)) [1%Z] [2%Z] = Ok pre /\
    spec_first_offset [1%Z] = 1 /\
    row_complete pre (spec_first_offset [1%Z]) = false /\
    hd_error (complete_rows pre) <> Some (spec_first_offset [1%Z]).
Proof.
  eexists. split; [reflexivity |]. split; [reflexivity |].
  split; [reflexivity |]. lazy. discriminate.
Qed.

(** ** Twenty months growing by one percent *)

(** C2 (as amended).  Twenty monthly observations, each 1% above the one
    before, with [lags = [1]] and [windows = [3]]: the returned table has
    exactly 16 rows, the offsets 3 to 18. *)
Theorem twenty_months_rows :
  exists out,
    buildFeatureMatrix series20 [1%Z] [3%Z] = Ok out /\
    nrows out = 16.
Proof.
  destruct (buildFeatureMatrix series20 [1%Z] [3%Z]) as [out | e] eqn:Hb;
    [| vm_compute in Hb; discriminate].
  exists out. split; [reflexivity |].
  destruct (buildFeatureMatrix_inv _ _ _ Hb)
    as (pre & Hpre & Hout & _).
  assert (Hv : validated series20 = true) by (vm_compute; reflexivity).
  rewrite (clean_validated _ Hv) in Hpre.
  rewrite Hout, nrows_dropna.
  rewrite (@complete_rows_interval series20 [1%Z] [3%Z] pre Hv).
  - reflexivity.
  - intros k [<- | []]; lia.
  - intros w [<- | []]; lia.
  - exact Hpre.
Qed.

(** C2 as the design document has it fails: the table does not have 15
    rows. *)
Lemma twenty_months_rows_counterexample :
  exists out,
    buildFeatureMatrix series20 [1%Z] [3%Z] = Ok out /\ nrows out <> 15.
Proof.
  destruct (buildFeatureMatrix series20 [1%Z] [3%Z]) as [out | e] eqn:Hb;
    [| vm_compute in Hb; discriminate].
  exists out. split; [reflexivity |].
  destruct (buildFeatureMatrix_inv _ _ _ Hb)
    as (pre & Hpre & Hout & _).
  assert (Hv : validated series20 = true) by (vm_compute; reflexivity).
  rewrite (clean_validated _ Hv) in Hpre.
  rewrite Hout, nrows_dropna.
  rewrite (@complete_rows_interval series20 [1%Z] [3%Z] pre Hv).
  - simpl. discriminate.
  - intros k [<- | []]; lia.
  - intros w [<- | []]; lia.
  - exact Hpre.
Qed.

(** ** Rolling statistics *)

Lemma INR_pred_window (w : Z) :
  (1 <= w)%Z -> INR (Z.to_nat w - 1) = (IZR w - 1)%R.
Proof.
  intros Hw. rewrite minus_INR by lia. rewrite INR_IZR_INZ.
  rewrite Z2Nat.id by lia. simpl. reflexivity.
Qed.

Lemma INR_window (w : Z) : (0 <= w)%Z -> INR (Z.to_nat w) = IZR w.
Proof. intros Hw. rewrite INR_IZR_INZ, Z2Nat.id by lia. reflexivity. Qed.

(** A window of size 1 leaves no complete row. *)
Lemma window_one_no_rows
  (rows : RawFrame) (lags windows : list Z) (pre : DataFrame) :
  all_positive rows ->
  In 1%Z windows ->
  add_features (frame_of rows) lags windows = Ok pre ->
  complete_rows pre = [].
Proof.
  intros Hpos Hin Hpre.
  destruct (forallb nonneg windows) eqn:Hnn;
    [| rewrite (@add_features_negative rows lags windows Hnn) in Hpre;
       discriminate].
  destruct (@add_features_ok rows lags windows Hnn)
    as (pre' & Hpre' & Hi & Hd & Hn & Hc).
  rewrite Hpre in Hpre'. injection Hpre' as <-.
  unfold complete_rows. apply filter_nothing. intros t Ht.
  apply in_seq in Ht. rewrite (nrows_pre _ _ Hi) in Ht.
  assert (Htn : t < length rows) by lia.
  rewrite (@row_complete_spec rows lags windows pre Hpos Hd Hn Hc t Htn).
  apply andb_false_iff. right. unfold complete_at.
  apply andb_false_iff. right.
  apply Bool.not_true_is_false. intros E.
  rewrite forallb_forall in E. specialize (E 1%Z Hin). discriminate.
Qed.

(** C4.  In the table before rows are dropped, for a window [w] of the
    request and a position [t] with [w] log-returns ending at it (so
    [w <= t]), [r_roll_mean_w[t]] is the arithmetic mean of
    [log_return[t-w+1 .. t]] and, for [w >= 2], [r_roll_std_w[t]] is their
    sample standard deviation, dividing by [w - 1].  For [w = 1] the
    standard deviation is missing at every position, never 0, and no row
    survives [dropna]. *)
Theorem rolling_statistics
  (df : RawFrame) (lags windows : list Z) (pre : DataFrame) (w : Z) :
  add_features (frame_of (clean df)) lags windows = Ok pre ->
  In w windows ->
  (1 <= w)%Z ->
  exists (lr m sd : Series),
    lookup col_log_return (columns pre) = Some lr /\
    lookup (r_roll_mean w) (columns pre) = Some m /\
    lookup (r_roll_std w) (columns pre) = Some sd /\
    (forall t,
        Z.to_nat w <= t -> t < length (clean df) ->
        let xs := returns_window (clean df) (Z.to_nat w) t in
        map Some xs = map (cell lr) (seq (S t - Z.to_nat w) (Z.to_nat w)) /\
        length xs = Z.to_nat w /\
        cell m t = Some (Rsum xs / IZR w)%R /\
        ((2 <= w)%Z -> cell sd t = Some (sample_std xs w))) /\
    (w = 1%Z ->
     (forall t, cell sd t = None) /\
     complete_rows pre = [] /\
     nrows (reset_index (dropna pre)) = 0).
Proof.
  intros Hpre Hin Hw.
  pose proof (clean_positive df) as Hpos.
  destruct (forallb nonneg windows) eqn:Hnn;
    [| rewrite (@add_features_negative (clean df) lags windows Hnn) in Hpre;
       discriminate].
  destruct (@add_features_ok (clean df) lags windows Hnn)
    as (pre' & Hpre' & Hi & Hd & Hn & Hc).
  rewrite Hpre in Hpre'. injection Hpre' as <-.
  apply mem_In in Hin.
  exists (log_return (clean df)), (rolling_mean (roll (clean df) w)),
    (rolling_std (roll (clean df) w)).
  split; [rewrite Hc; reflexivity |].
  split; [rewrite Hc; simpl; rewrite Hin; reflexivity |].
  split; [rewrite Hc; simpl; rewrite Hin; reflexivity |].
  split.
  - intros t Hwt Ht xs.
    assert (Hlen : length xs = Z.to_nat w) by apply length_returns_window.
    split; [| split; [exact Hlen | split]].
    + unfold xs, returns_window. rewrite map_map. apply map_ext_in.
      intros i Hi'. apply in_seq in Hi'.
      rewrite (cell_log_return _ Hpos).
      destruct (Nat.leb_spec 1 i); [| lia].
      destruct (Nat.ltb_spec i (length (clean df))); [reflexivity | lia].
    + rewrite (cell_rolling_mean _ _ Hpos).
      destruct (Nat.leb_spec 1 (Z.to_nat w)); [| lia].
      destruct (Nat.leb_spec (Z.to_nat w) t); [| lia].
      destruct (Nat.ltb_spec t (length (clean df))); [| lia].
      simpl. unfold mean. fold xs. rewrite Hlen, INR_window by lia.
      reflexivity.
    + intros Hw2. rewrite (cell_rolling_std _ _ Hpos).
      destruct (Nat.leb_spec 2 (Z.to_nat w)); [| lia].
      destruct (Nat.leb_spec (Z.to_nat w) t); [| lia].
      destruct (Nat.ltb_spec t (length (clean df))); [| lia].
      simpl. unfold sample_std, ssqdm, mean. fold xs.
      rewrite Hlen, INR_window, INR_pred_window by lia. reflexivity.
  - intros ->. split; [| split].
    + intros t. rewrite (cell_rolling_std _ _ Hpos). reflexivity.
    + apply (@window_one_no_rows (clean df) lags windows pre Hpos);
        [apply mem_In; exact Hin | exact Hpre].
    + rewrite nrows_dropna.
      rewrite (@window_one_no_rows (clean df) lags windows pre Hpos);
        [reflexivity | apply mem_In; exact Hin | exact Hpre].
Qed.

Lemma rolling_statistics_witness :
  exists pre m sd,
    add_features (frame_of (clean series5)) [1%Z] [2%Z] = Ok pre /\
    lookup (r_roll_mean 2) (columns pre) = Some m /\
    lookup (r_roll_std 2) (columns pre) = Some sd /\
    cell m 2 = Some (Rsum (returns_window (clean series5) 2 2) / 2)%R /\
    cell sd 2 = Some (sample_std (returns_window (clean series5) 2 2) 2).
Proof.
  destruct (add_features (frame_of (clean series5)) [1%Z] [2%Z])
    as [pre | e] eqn:Hpre; [| vm_compute in Hpre; discriminate].
  destruct (@rolling_statistics series5 [1%Z] [2%Z] pre 2%Z Hpre
              (or_introl eq_refl) ltac:(lia))
    as (lr & m & sd & Hlr & Hm & Hsd & Hcells & _).
  exists pre, m, sd. split; [reflexivity |].
  split; [exact Hm |]. split; [exact Hsd |].
  assert (H2 : Z.to_nat 2 <= 2) by (simpl; lia).
  assert (Hn : 2 < length (clean series5)) by (vm_compute; lia).
  destruct (Hcells 2 H2 Hn) as (_ & _ & Hmean & Hstd).
  split; [exact Hmean | apply Hstd; lia].
Defined.

(** ** No validation of lags and windows *)

(** C7 (as amended).  [buildFeatureMatrix] validates nothing and never
    raises [ConfigError].  A negative window makes it fail with the
    [ValueError] of pandas' [rolling]; with no negative window it returns a
    table whatever the lags are, and for every requested lag [k], positive
    or not, the column [r_lag_k] holds [log_return[t - k]]. *)
Theorem lags_windows_unchecked (df : RawFrame) (lags windows : list Z) :
  buildFeatureMatrix df lags windows <> Err ConfigError /\
  (forallb nonneg windows = false ->
   buildFeatureMatrix df lags windows = Err ValueError) /\
  (forallb nonneg windows = true ->
   exists pre,
     add_features (frame_of (clean df)) lags windows = Ok pre /\
     buildFeatureMatrix df lags windows = Ok (reset_index (dropna pre)) /\
     forall k, In k lags ->
       exists s,
         lookup (r_lag k) (columns pre) = Some s /\
         forall t, t < length (clean df) ->
           cell s t = cellZ (log_return (clean df)) (Z.of_nat t - k)).
Proof.
  assert (Hneg : forallb nonneg windows = false ->
                 buildFeatureMatrix df lags windows = Err ValueError).
  { intros Hnn. unfold buildFeatureMatrix.
    rewrite (@add_features_negative (clean df) lags windows Hnn).
    reflexivity. }
  assert (Hok : forallb nonneg windows = true ->
                exists pre,
                  add_features (frame_of (clean df)) lags windows = Ok pre /\
                  buildFeatureMatrix df lags windows
                  = Ok (reset_index (dropna pre)) /\
                  forall k, In k lags ->
                    exists s,
                      lookup (r_lag k) (columns pre) = Some s /\
                      forall t, t < length (clean df) ->
                        cell s t
                        = cellZ (log_return (clean df)) (Z.of_nat t - k)).
  { intros Hnn.
    destruct (@add_features_ok (clean df) lags windows Hnn)
      as (pre & Hpre & _ & _ & _ & Hc).
    exists pre. split; [exact Hpre |]. split.
    - unfold buildFeatureMatrix. rewrite Hpre. reflexivity.
    - intros k Hk. apply mem_In in Hk.
      exists (shift k (log_return (clean df))). split.
      + rewrite Hc. simpl. rewrite Hk. reflexivity.
      + intros t Ht. apply cell_shift. rewrite length_log_return. exact Ht. }
  split; [| split; assumption].
  destruct (forallb nonneg windows) eqn:Hnn.
  - destruct (Hok eq_refl) as (pre & _ & Hb & _). rewrite Hb. discriminate.
  - rewrite (Hneg eq_refl). discriminate.
Qed.

Lemma lags_windows_unchecked_witness :
  buildFeatureMatrix series5 [0%Z] [(-2)%Z] = Err ValueError /\
  exists out, buildFeatureMatrix series5 [0%Z] [2%Z] = Ok out.
Proof.
  destruct (@lags_windows_unchecked series5 [0%Z] [(-2)%Z])
    as (_ & Hneg & _).
  destruct (@lags_windows_unchecked series5 [0%Z] [2%Z]) as (_ & _ & Hok).
  split; [apply Hneg; reflexivity |].
  destruct (Hok eq_refl) as (pre & _ & Hb & _).
  exists (reset_index (dropna pre)). exact Hb.
Defined.

(** C7 as the design document has it fails: the lags 0 and -1 are accepted
    without complaint.  The call returns two rows in which [r_lag_0] is the
    row's own log-return and [r_lag_-1] is the target itself. *)
Lemma lags_windows_unchecked_counterexample :
  exists out,
    buildFeatureMatrix series5 [0%Z; (-1)%Z] [2%Z] = Ok out /\
    nrows out = 2 /\
    lookup (r_lag 0) (columns out) = lookup col_log_return (columns out) /\
    lookup (r_lag (-1)) (columns out) = lookup y_next_return (columns out) /\
    lookup y_next_return (columns out) <> None.
Proof.
  eexists. split; [reflexivity |]. split; [reflexivity |].
  split; [reflexivity |]. split; [reflexivity |]. lazy. discriminate.
Qed.

(** ** The time split *)

Lemma py_round_range (x : Q) (n : Z) :
  (0 <= x)%Q -> (x <= inject_Z n)%Q -> (0 <= py_round x <= n)%Z.
Proof.
  intros H0 Hn. unfold py_round.
  pose proof (Qfloor_le x) as Hfl.
  assert (Hlo : (0 <= Qfloor x)%Z).
  { apply Qfloor_resp_le in H0. exact H0. }
  assert (Hhi : (Qfloor x <= n)%Z).
  { apply Qfloor_resp_le in Hn. rewrite Qfloor_Z in Hn. exact Hn. }
  assert (Hfull : Qfloor x = n -> (x - inject_Z (Qfloor x) <= 0)%Q).
  { intros ->. lra. }
  destruct (Qcompare_spec (x - inject_Z (Qfloor x)) (1 # 2)) as [He | Hl | Hg].
  - destruct (Z.even (Qfloor x)); [lia |].
    destruct (Z.eq_dec (Qfloor x) n) as [E | E]; [| lia].
    specialize (Hfull E). lra.
  - lia.
  - destruct (Z.eq_dec (Qfloor x) n) as [E | E]; [| lia].
    specialize (Hfull E). lra.
Qed.

Lemma exact_mul_range (n : Z) (x : Q) :
  (0 <= n)%Z -> (0 < x)%Q -> (x < 1)%Q ->
  (0 <= exact_mul n x)%Q /\ (exact_mul n x <= inject_Z n)%Q.
Proof.
  intros Hn H0 H1. unfold exact_mul.
  assert (Hq : (0 <= inject_Z n)%Q).
  { change 0%Q with (inject_Z 0). rewrite <- Zle_Qle. exact Hn. }
  split; nra.
Qed.

Lemma slice_bound_le (n : nat) (k : Z) : slice_bound n k <= n.
Proof.
  unfold slice_bound. destruct (Z.ltb_spec k 0); lia.
Qed.

Lemma head_tail_index (m : nat) (df : DataFrame) :
  index df = index (head_rows m df) ++ index (tail_rows m df).
Proof. simpl. symmetry. apply firstn_skipn. Qed.

Lemma head_tail_date (m : nat) (df : DataFrame) :
  date df = date (head_rows m df) ++ date (tail_rows m df).
Proof. simpl. symmetry. apply firstn_skipn. Qed.

Lemma head_tail_column (m : nat) (df : DataFrame) (c : column) (s : Series) :
  lookup c (columns df) = Some s ->
  exists a b,
    lookup c (columns (head_rows m df)) = Some a /\
    lookup c (columns (tail_rows m df)) = Some b /\
    s = a ++ b.
Proof.
  intros H. exists (firstn m s), (skipn m s). simpl.
  rewrite (lookup_map_columns (firstn m)), (lookup_map_columns (skipn m)), H.
  repeat split. symmetry. apply firstn_skipn.
Qed.

Lemma tail_rows_0 (df : DataFrame) : tail_rows 0 df = df.
Proof.
  destruct df as [i d cs]. unfold tail_rows. simpl. f_equal.
  induction cs as [| [c s] r IH]; simpl; [reflexivity |].
  rewrite IH. reflexivity.
Qed.

Section TimeSplitProperties.

Variable float_mul : Z -> Q -> Q.

Hypothesis float_mul_range :
  forall (n : Z) (x : Q),
    (0 <= n)%Z -> (0 < x)%Q -> (x < 1)%Q ->
    (0 <= float_mul n x)%Q /\ (float_mul n x <= inject_Z n)%Q.

Lemma n_test_range (n : nat) (test_size : Q) :
  (0 < test_size)%Q -> (test_size < 1)%Q ->
  (1 <= n_test float_mul n test_size <= Z.max 1 (Z.of_nat n))%Z.
Proof.
  intros H0 H1. unfold n_test.
  destruct (@float_mul_range (Z.of_nat n) test_size ltac:(lia) H0 H1)
    as [Ha Hb].
  pose proof (@py_round_range _ _ Ha Hb). lia.
Qed.


(** C8 (as amended).  [timeSplit] checks nothing and raises no error of
    its own.  When the test part takes all [n] rows the train part is
    empty and the test part is the whole table; for a fraction strictly
    between 0 and 1 that is what happens to every table of fewer than 2
    rows. *)
Theorem time_split_degenerate (df : DataFrame) (test_size : Q) :
  (n_test float_mul (nrows df) test_size = Z.of_nat (nrows df) ->
   timeSplit float_mul df test_size = (head_rows 0 df, df)) /\
  ((0 < test_size)%Q -> (test_size < 1)%Q -> nrows df < 2 ->
   timeSplit float_mul df test_size = (head_rows 0 df, df)).
Proof.
  assert (Hzero : forall k : Z,
             slice_bound (nrows df) (Z.of_nat (nrows df) - k) = 0 ->
             (iloc_to (Z.of_nat (nrows df) - k) df,
              iloc_from (Z.of_nat (nrows df) - k) df)
             = (head_rows 0 df, df)).
  { intros k Hk. unfold iloc_to, iloc_from. rewrite Hk, tail_rows_0.
    reflexivity. }
  split.
  - intros Hk. unfold timeSplit. apply Hzero. rewrite Hk.
    rewrite Z.sub_diag. reflexivity.
  - intros H0 H1 Hn. unfold timeSplit. apply Hzero.
    pose proof (@n_test_range (nrows df) test_size H0 H1) as Hr.
    unfold slice_bound.
    destruct (Z.ltb_spec
                (Z.of_nat (nrows df) - n_test float_mul (nrows df) test_size)
                0); lia.
Qed.

End TimeSplitProperties.


Lemma time_split_degenerate_witness :
  timeSplit exact_mul table2 (3 # 4) = (head_rows 0 table2, table2) /\
  timeSplit exact_mul (table [19723%Z]) (1 # 5)
  = (head_rows 0 (table [19723%Z]), table [19723%Z]).
Proof.
  destruct (@time_split_degenerate exact_mul exact_mul_range table2 (3 # 4))
    as [Hall _].
  destruct (@time_split_degenerate exact_mul exact_mul_range
              (table [19723%Z]) (1 # 5))
    as [_ Hshort].
  split.
  - apply Hall. reflexivity.
  - apply Hshort; [reflexivity | reflexivity | unfold nrows; simpl; lia].
Defined.

(** C8 as the design document has it fails: with two rows and a test
    fraction of 0.75 the test part takes [round(1.5) = 2 >= n] rows, and
    with a single row the table is too short; both calls return, with an
    empty train part. *)
Lemma time_split_degenerate_counterexample :
  (n_test exact_mul (nrows table2) (3 # 4) >= Z.of_nat (nrows table2))%Z /\
  nrows (fst (timeSplit exact_mul table2 (3 # 4))) = 0 /\
  snd (timeSplit exact_mul table2 (3 # 4)) = table2 /\
  nrows (table [19723%Z]) < 2 /\
  nrows (fst (timeSplit exact_mul (table [19723%Z]) (1 # 5))) = 0 /\
  nrows (snd (timeSplit exact_mul (table [19723%Z]) (1 # 5))) = 1.
Proof.
  split; [vm_compute; discriminate |].
  split; [reflexivity |]. split; [reflexivity |].
  split; [unfold nrows; simpl; lia |]. split; reflexivity.
Qed.

(** ** Train before test *)

Lemma ascending_from_values (l : list (option Z)) :
  forall d,
    ascending_from d l = true ->
    exists zs, l = map Some zs /\ StronglySorted Z.lt (d :: zs).
Proof.
  induction l as [| [e |] l IH]; intros d H.
  - exists []. split; [reflexivity | repeat constructor].
  - simpl in H. apply andb_prop in H. destruct H as [Hde H].
    apply Z.ltb_lt in Hde.
    destruct (IH e H) as (zs & -> & Hs). exists (e :: zs).
    split; [reflexivity |]. constructor; [exact Hs |].
    apply StronglySorted_inv in Hs. destruct Hs as [_ Hall].
    constructor; [exact Hde |].
    eapply Forall_impl; [| exact Hall]. intros x Hx. simpl in Hx. lia.
  - discriminate.
Qed.

Lemma strictly_ascending_values (l : list (option Z)) :
  strictly_ascending l = true ->
  exists zs, l = map Some zs /\ StronglySorted Z.lt zs.
Proof.
  destruct l as [| [d |] l]; simpl; intros H.
  - exists []. split; [reflexivity | constructor].
  - destruct (@ascending_from_values _ _ H) as (zs & -> & Hs).
    exists (d :: zs). split; [reflexivity | exact Hs].
  - discriminate.
Qed.

Lemma sorted_app_lt (zs1 zs2 : list Z) :
  StronglySorted Z.lt (zs1 ++ zs2) ->
  forall a b, In a zs1 -> In b zs2 -> (a < b)%Z.
Proof.
  induction zs1 as [| z zs1 IH]; simpl; intros Hs a b Ha Hb; [contradiction |].
  apply StronglySorted_inv in Hs. destruct Hs as [Hs Hall].
  destruct Ha as [<- | Ha].
  - rewrite Forall_forall in Hall. apply Hall. apply in_or_app. right; exact Hb.
  - apply (IH Hs a b Ha Hb).
Qed.

Lemma date_max_in (zs : list Z) :
  zs <> [] -> exists a, date_max (map Some zs) = Some a /\ In a zs.
Proof.
  induction zs as [| z zs IH]; intros Hne; [contradiction |].
  simpl. destruct zs as [| z' zs'].
  - exists z. split; [reflexivity | left; reflexivity].
  - destruct IH as (m & Hm & Hin); [discriminate |].
    rewrite Hm. exists (Z.max z m). split; [reflexivity |].
    destruct (Z.max_spec z m) as [[_ ->] | [_ ->]];
      [right; exact Hin | left; reflexivity].
Qed.

Lemma date_min_in (zs : list Z) :
  zs <> [] -> exists a, date_min (map Some zs) = Some a /\ In a zs.
Proof.
  induction zs as [| z zs IH]; intros Hne; [contradiction |].
  simpl. destruct zs as [| z' zs'].
  - exists z. split; [reflexivity | left; reflexivity].
  - destruct IH as (m & Hm & Hin); [discriminate |].
    rewrite Hm. exists (Z.min z m). split; [reflexivity |].
    destruct (Z.min_spec z m) as [[_ ->] | [_ ->]];
      [left; reflexivity | right; exact Hin].
Qed.

Section TrainBeforeTest.

Variable float_mul : Z -> Q -> Q.

Hypothesis float_mul_range :
  forall (n : Z) (x : Q),
    (0 <= n)%Z -> (0 < x)%Q -> (x < 1)%Q ->
    (0 <= float_mul n x)%Q /\ (float_mul n x <= inject_Z n)%Q.

Lemma timeSplit_parts (df : DataFrame) (test_size : Q) :
  (0 < test_size)%Q -> (test_size < 1)%Q -> 1 <= nrows df ->
  let k := Z.to_nat (n_test float_mul (nrows df) test_size) in
  1 <= k <= nrows df /\
  timeSplit float_mul df test_size
  = (head_rows (nrows df - k) df, tail_rows (nrows df - k) df).
Proof.
  intros H0 H1 Hn k.
  pose proof (@n_test_range float_mul float_mul_range (nrows df) test_size
                H0 H1) as Hr.
  split; [unfold k; lia |].
  unfold timeSplit, iloc_to, iloc_from.
  replace (slice_bound (nrows df)
             (Z.of_nat (nrows df) - n_test float_mul (nrows df) test_size))
    with (nrows df - k); [reflexivity |].
  unfold slice_bound, k.
  destruct (Z.ltb_spec
              (Z.of_nat (nrows df) - n_test float_mul (nrows df) test_size)
              0); lia.
Qed.

(** C6 (as amended).  For a table whose dates are present and strictly
    ascending, with [n >= 2] rows and a fraction strictly between 0 and 1,
    every train date is strictly earlier than every test date; and when
    the train part is not empty (the test part takes fewer than [n] rows),
    [max(train.date) < min(test.date)]. *)
Theorem train_dates_before_test (df : DataFrame) (test_size : Q) :
  strictly_ascending (date df) = true ->
  length (date df) = nrows df ->
  2 <= nrows df ->
  (0 < test_size)%Q -> (test_size < 1)%Q ->
  let train := fst (timeSplit float_mul df test_size) in
  let test := snd (timeSplit float_mul df test_size) in
  (forall a b,
      In (Some a) (date train) -> In (Some b) (date test) -> (a < b)%Z) /\
  ((n_test float_mul (nrows df) test_size < Z.of_nat (nrows df))%Z ->
   train_before_test train test).
Proof.
  intros Hasc Hlen Hn H0 H1 train test.
  destruct (@timeSplit_parts df test_size H0 H1 ltac:(lia)) as [Hk Hsplit].
  unfold train, test. rewrite Hsplit. simpl fst. simpl snd.
  set (k := Z.to_nat (n_test float_mul (nrows df) test_size)) in *.
  destruct (@strictly_ascending_values _ Hasc) as (zs & Hzs & Hsorted).
  simpl date. rewrite Hzs, firstn_map, skipn_map.
  rewrite Hzs, length_map in Hlen.
  rewrite <- (firstn_skipn (nrows df - k) zs) in Hsorted.
  pose proof (@sorted_app_lt _ _ Hsorted) as Hlt.
  split.
  - intros a b Ha Hb. apply in_map_iff in Ha. apply in_map_iff in Hb.
    destruct Ha as (a' & [= ->] & Ha). destruct Hb as (b' & [= ->] & Hb).
    apply Hlt; assumption.
  - intros Hsmall.
    destruct (date_max_in (zs := firstn (nrows df - k) zs)) as (a & Ha & Hina).
    { intros E. apply (f_equal (@length Z)) in E.
      rewrite length_firstn in E. simpl in E. lia. }
    destruct (date_min_in (zs := skipn (nrows df - k) zs)) as (b & Hb & Hinb).
    { intros E. apply (f_equal (@length Z)) in E.
      rewrite length_skipn in E. simpl in E. lia. }
    unfold train_before_test. simpl date.
    rewrite Hzs, firstn_map, skipn_map.
    exists a, b. split; [exact Ha |]. split; [exact Hb |].
    apply Hlt; assumption.
Qed.

End TrainBeforeTest.

Lemma train_dates_before_test_witness :
  train_before_test (fst (timeSplit exact_mul table10 (1 # 2)))
                    (snd (timeSplit exact_mul table10 (1 # 2))).
Proof.
  assert (Hn : 2 <= nrows table10) by (unfold nrows; simpl; lia).
  destruct (@train_dates_before_test exact_mul exact_mul_range table10 (1 # 2)
              eq_refl eq_refl Hn eq_refl eq_refl)
    as [_ Hmax].
  apply Hmax. reflexivity.
Defined.

(** C6 as the design document has it fails in two ways.  With two rows and
    a test fraction of 0.75 the train part is empty and has no latest date.
    With two rows of the same date, in ascending order, and a fraction of
    0.5, the latest train date equals the earliest test date. *)
Lemma train_dates_before_test_counterexample :
  (strictly_ascending (date table2) = true /\
   nrows table2 = 2 /\
   ~ train_before_test (fst (timeSplit exact_mul table2 (3 # 4)))
                       (snd (timeSplit exact_mul table2 (3 # 4)))) /\
  (Sorted Z.le [19723; 19723]%Z /\
   ~ train_before_test
       (fst (timeSplit exact_mul (table [19723; 19723]%Z) (1 # 2)))
       (snd (timeSplit exact_mul (table [19723; 19723]%Z) (1 # 2)))).
Proof.
  split.
  - split; [reflexivity |]. split; [reflexivity |].
    intros (a & b & Ha & _). vm_compute in Ha. discriminate.
  - split; [repeat constructor; lia |].
    intros (a & b & Ha & Hb & Hlt).
    vm_compute in Ha. vm_compute in Hb.
    injection Ha as <-. injection Hb as <-. lia.
Qed.

(** ** Metrics *)

Lemma zip_with_ext (A B C : Type) (f g : A -> B -> C) :
  (forall a b, f a b = g a b) ->
  forall l l', zip_with f l l' = zip_with g l l'.
Proof.
  intros H. induction l as [| a l IH]; intros [| b l']; simpl; try reflexivity.
  rewrite H, IH. reflexivity.
Qed.

Lemma Rsum_zip_diag (f : R -> R -> R) (ys : list R) :
  (forall y, f y y = 0%R) -> Rsum (zip_with f ys ys) = 0%R.
Proof.
  intros H. induction ys as [| y ys IH]; simpl; [reflexivity |].
  rewrite H, IH. apply Rplus_0_l.
Qed.

Lemma length_zip_with (A B C : Type) (f : A -> B -> C) :
  forall l l', length l = length l' -> length (zip_with f l l') = length l.
Proof.
  induction l as [| a l IH]; intros [| b l'] H; simpl in *;
    try reflexivity; try discriminate.
  rewrite IH; [reflexivity | lia].
Qed.

Lemma check_targets_ok (y_true y_pred : list R) :
  length y_true = length y_pred -> y_true <> [] ->
  check_targets y_true y_pred = Ok tt.
Proof.
  intros Hlen Hne. unfold check_targets.
  rewrite Hlen, Nat.eqb_refl. simpl.
  destruct y_pred; [destruct y_true; [contradiction | discriminate] |].
  reflexivity.
Qed.

(** C9.  On a non-empty test set, [main] computes
    [mae = mean(|y_true - y_pred|)] and
    [rmse = sqrt(mean((y_true - y_pred)^2))]; when the predictions equal
    the true values both are exactly 0. *)
Theorem evaluate_metrics (y_true y_pred : list R) :
  length y_true = length y_pred ->
  y_true <> [] ->
  evaluate y_true y_pred
  = Ok ((Rsum (zip_with (fun t p => Rabs (t - p)) y_true y_pred)
         / INR (length y_true))%R,
        sqrt (Rsum (zip_with (fun t p => (t - p) ^ 2) y_true y_pred)
              / INR (length y_true))%R) /\
  evaluate y_true y_true = Ok (0%R, 0%R).
Proof.
  intros Hlen Hne. split.
  - unfold evaluate, mean_absolute_error, mean_squared_error.
    rewrite (check_targets_ok _ Hlen Hne). simpl. unfold mean.
    rewrite !length_zip_with by exact Hlen.
    rewrite (zip_with_ext (fun t p => Rabs (p - t))
                          (fun t p => Rabs (t - p)))
      by (intros a b; apply Rabs_minus_sym).
    rewrite (zip_with_ext (fun t p => ((t - p) * (t - p))%R)
                          (fun t p => ((t - p) ^ 2)%R))
      by (intros a b; ring).
    reflexivity.
  - unfold evaluate, mean_absolute_error, mean_squared_error.
    rewrite (check_targets_ok _ eq_refl Hne). simpl. unfold mean.
    rewrite !Rsum_zip_diag.
    + replace (0 / INR (length (zip_with (fun t p => Rabs (p - t))
                                         y_true y_true)))%R
        with 0%R by (unfold Rdiv; ring).
      replace (0 / INR (length (zip_with (fun t p => ((t - p) * (t - p))%R)
                                         y_true y_true)))%R
        with 0%R by (unfold Rdiv; ring).
      rewrite sqrt_0. reflexivity.
    + intros y. ring.
    + intros y. replace (y - y)%R with 0%R by ring. apply Rabs_R0.
Qed.

Lemma evaluate_metrics_witness :
  evaluate [1; 3]%R [2; 1]%R
  = Ok ((Rsum [Rabs (1 - 2); Rabs (3 - 1)] / INR 2)%R,
        sqrt (Rsum [(1 - 2) ^ 2; (3 - 1) ^ 2] / INR 2)%R) /\
  evaluate [1; 3]%R [1; 3]%R = Ok (0%R, 0%R).
Proof.
  apply (@evaluate_metrics [1; 3]%R [2; 1]%R); [reflexivity | discriminate].
Defined.

(** ** Sorting is done inside *)

Lemma strongly_sorted_filter (A : Type) (R : A -> A -> Prop) (p : A -> bool)
  (l : list A) :
  StronglySorted R l -> StronglySorted R (filter p l).
Proof.
  induction 1 as [| a l Hs IH Ha]; simpl; [constructor |].
  destruct (p a); [| exact IH].
  constructor; [exact IH |].
  rewrite Forall_forall in *. intros x Hx. apply filter_In in Hx.
  apply Ha. apply Hx.
Qed.

Lemma strongly_sorted_map (A B : Type) (R : A -> A -> Prop)
  (R' : B -> B -> Prop) (f : A -> B) (l : list A) :
  (forall a b, R a b -> R' (f a) (f b)) ->
  StronglySorted R l -> StronglySorted R' (map f l).
Proof.
  intros Hf. induction 1 as [| a l Hs IH Ha]; simpl; constructor.
  - exact IH.
  - rewrite Forall_forall in *. intros y Hy. apply in_map_iff in Hy.
    destruct Hy as (x & <- & Hx). apply Hf, Ha, Hx.
Qed.

Lemma strongly_sorted_seq (n : nat) : forall a, StronglySorted lt (seq a n).
Proof.
  induction n as [| n IH]; intros a; simpl; constructor.
  - apply IH.
  - apply Forall_forall. intros x Hx. apply in_seq in Hx. lia.
Qed.

Lemma strongly_sorted_nth (A : Type) (R : A -> A -> Prop) (d : A)
  (l : list A) :
  StronglySorted R l ->
  forall i j, i < j -> j < length l -> R (nth i l d) (nth j l d).
Proof.
  induction 1 as [| a l Hs IH Ha]; intros i j Hij Hj; simpl in Hj; [lia |].
  destruct j as [| j]; [lia |]. destruct i as [| i]; simpl.
  - rewrite Forall_forall in Ha. apply Ha. apply nth_In. lia.
  - apply IH; lia.
Qed.

Lemma strongly_sorted_take (A : Type) (R : A -> A -> Prop) (d : A)
  (l : list A) (pos : list nat) :
  StronglySorted R l -> StronglySorted lt pos ->
  Forall (fun p => p < length l) pos ->
  StronglySorted R (take d l pos).
Proof.
  intros Hl Hpos Hin. induction Hpos as [| p pos Hs IH Hp]; simpl.
  - constructor.
  - inversion Hin as [| ? ? Hpl Hrest]; subst.
    constructor; [apply IH; exact Hrest |].
    apply Forall_forall. intros x Hx. unfold take in Hx.
    apply in_map_iff in Hx. destruct Hx as (q & <- & Hq).
    rewrite Forall_forall in Hp, Hrest.
    apply strongly_sorted_nth; [exact Hl | apply Hp, Hq | apply Hrest, Hq].
Qed.

Lemma ascending_dates_intro (l : list (option Z)) :
  Forall (fun d => notnat d = true) l ->
  StronglySorted odate_le l ->
  ascending_dates l.
Proof.
  intros Hall Hs. induction Hs as [| a l Hs IH Ha].
  - exists []. split; [reflexivity | constructor].
  - inversion Hall as [| ? ? Hna Hrest]; subst.
    destruct (IH Hrest) as (ds & -> & Hsorted).
    destruct a as [x |]; [| discriminate].
    exists (x :: ds). split; [reflexivity |].
    constructor; [exact Hsorted |].
    destruct ds as [| y ds]; constructor.
    rewrite Forall_forall in Ha.
    specialize (Ha (Some y) (or_introl eq_refl)).
    unfold odate_le in Ha. simpl in Ha. apply Z.leb_le. exact Ha.
Qed.

Lemma clean_sorted (df : RawFrame) : StronglySorted date_le (clean df).
Proof.
  unfold clean, dropna_value.
  apply strongly_sorted_filter, strongly_sorted_filter.
  apply sorted_strongly, sort_values_sorted.
Qed.

(** The date column of the returned table. *)
Lemma dropna_dates_ascending (rows : RawFrame) (pre : DataFrame) :
  StronglySorted date_le rows ->
  index pre = map raw_index rows ->
  date pre = map raw_date rows ->
  ascending_dates (date (reset_index (dropna pre))).
Proof.
  intros Hs Hi Hd. simpl. apply ascending_dates_intro.
  - apply Forall_forall. intros d Hin. unfold take in Hin.
    apply in_map_iff in Hin. destruct Hin as (t & <- & Ht).
    unfold complete_rows in Ht. apply filter_In in Ht.
    destruct Ht as [_ Hc]. unfold row_complete in Hc.
    apply andb_prop in Hc. apply Hc.
  - apply strongly_sorted_take.
    + rewrite Hd. apply (strongly_sorted_map (R := date_le)); [| exact Hs].
      intros a b Hab. exact Hab.
    + unfold complete_rows. apply strongly_sorted_filter, strongly_sorted_seq.
    + apply Forall_forall. intros t Ht. unfold complete_rows in Ht.
      apply filter_In in Ht. destruct Ht as [Ht _]. apply in_seq in Ht.
      rewrite Hd, length_map. rewrite (nrows_pre _ _ Hi) in Ht. lia.
Qed.

Lemma distinct_dates_perm (l l' : RawFrame) :
  Permutation l l' -> distinct_dates l -> distinct_dates l'.
Proof.
  intros Hp [Hnd Hall]. split.
  - apply (Permutation_NoDup (Permutation_map raw_date Hp) Hnd).
  - apply (Permutation_Forall Hp Hall).
Qed.

Lemma sorted_distinct_strict (l : RawFrame) :
  StronglySorted date_le l -> distinct_dates l -> StronglySorted date_lt l.
Proof.
  induction 1 as [| a l Hs IH Ha]; intros [Hnd Hall]; [constructor |].
  simpl in Hnd. inversion Hnd as [| ? ? Hnotin Hnd']; subst.
  inversion Hall as [| ? ? Hsome Hall']; subst.
  constructor; [apply IH; split; assumption |].
  rewrite Forall_forall in *. intros x Hx.
  specialize (Ha x Hx). pose proof (Hall' x Hx) as Hxsome.
  unfold date_le in Ha.
  destruct (raw_date a) as [da |] eqn:Ea; [| contradiction].
  destruct (raw_date x) as [dx |] eqn:Ex; [| contradiction].
  exists da, dx. split; [exact Ea |]. split; [exact Ex |].
  simpl in Ha. apply Z.leb_le in Ha.
  assert (Hne : da <> dx).
  { intros ->. apply Hnotin. rewrite <- Ex. apply in_map; exact Hx. }
  lia.
Qed.

(** A table without repeated dates has one arrangement in date order. *)
Lemma date_order_unique (l l' : RawFrame) :
  Permutation l l' ->
  StronglySorted date_le l -> StronglySorted date_le l' ->
  distinct_dates l' -> l = l'.
Proof.
  intros Hp Hs Hs' Hd. apply sorted_perm_unique; [exact Hs | | exact Hp].
  apply sorted_distinct_strict; assumption.
Qed.

(** C10 (as amended).  [buildFeatureMatrix] sorts by date itself: for an
    input whose dates are present and pairwise distinct, in whatever order
    its rows come, the result is the one obtained from the same rows put
    in date order.  For every input the returned table is ascending by
    date and carries the index 0..m-1, [m] being the length of its date
    column and of every other column.  Neither part depends on how line 38
    leaves rows of equal date. *)
Theorem sorts_by_date_itself (df : RawFrame) (lags windows : list Z) :
  (forall df',
      Permutation df df' ->
      strictly_ascending (map raw_date df') = true ->
      buildFeatureMatrix df lags windows
      = buildFeatureMatrix df' lags windows) /\
  (forall out,
      buildFeatureMatrix df lags windows = Ok out ->
      ascending_dates (date out) /\
      index out = map Z.of_nat (seq 0 (length (date out))) /\
      forall c s,
        lookup c (columns out) = Some s -> length s = length (date out)).
Proof.
  split.
  - intros df' Hp Hasc. unfold buildFeatureMatrix, clean.
    rewrite (sort_values_unique Hp Hasc).
    rewrite (sort_values_unique (Permutation_refl df') Hasc).
    reflexivity.
  - intros out Hb.
    destruct (buildFeatureMatrix_inv _ _ _ Hb)
      as (pre & _ & -> & _ & Hi & Hd & _).
    split; [| split].
    + apply (@dropna_dates_ascending (clean df) pre (clean_sorted df) Hi Hd).
    + simpl. unfold nrows. simpl. rewrite !length_take. reflexivity.
    + intros c s Hc. rewrite lookup_dropna in Hc.
      destruct (lookup c (columns pre)) as [s' |]; [| discriminate].
      simpl in Hc. injection Hc as <-. simpl. rewrite !length_take.
      reflexivity.
Qed.

Lemma sorts_by_date_itself_witness :
  buildFeatureMatrix shuffled5 [1%Z] [2%Z]
  = buildFeatureMatrix series5 [1%Z] [2%Z] /\
  exists out,
    buildFeatureMatrix shuffled5 [1%Z] [2%Z] = Ok out /\
    date out = [Some 19783%Z; Some 19814%Z] /\
    index out = [0%Z; 1%Z].
Proof.
  destruct (@sorts_by_date_itself shuffled5 [1%Z] [2%Z]) as (Hperm & Hout).
  split.
  - apply Hperm; [| reflexivity].
    change series5 with (sort_values shuffled5).
    apply Permutation_sym, sort_values_perm.
  - destruct (buildFeatureMatrix shuffled5 [1%Z] [2%Z]) as [out | e] eqn:Hb;
      [| vm_compute in Hb; discriminate].
    destruct (Hout out eq_refl) as (_ & Hidx & _).
    assert (Hd : date out = [Some 19783%Z; Some 19814%Z]).
    { lazy in Hb. injection Hb as <-. reflexivity. }
    exists out. split; [reflexivity |]. split; [exact Hd |].
    rewrite Hidx, Hd. reflexivity.
Defined.

Lemma buildFeatureMatrix_after_sorting (df : RawFrame) (lags windows : list Z) :
  buildFeatureMatrix df lags windows
  = after_sorting (sort_values df) lags windows.
Proof. reflexivity. Qed.

(** C10 as the design document has it fails for repeated dates.  [tied3]
    and [tied3'] hold the same three rows, both in date order, with the
    same date in each position; the tables returned for them differ in
    their [value] column.  This does not hang on how rows of equal date
    are left: a sort that sees only the dates reorders the positions of
    both tables alike, and for each of the reorderings that put the dates
    in order the two results differ. *)
Lemma sorts_by_date_itself_counterexample :
  Permutation tied3 tied3' /\
  Sorted date_le tied3' /\
  map raw_date tied3 = map raw_date tied3' /\
  buildFeatureMatrix tied3 [] [] <> buildFeatureMatrix tied3' [] [] /\
  (forall pos,
      Permutation pos [0; 1; 2] ->
      Sorted odate_le (take None (map raw_date tied3) pos) ->
      after_sorting (take no_row tied3 pos) [] []
      <> after_sorting (take no_row tied3' pos) [] []).
Proof.
  assert (Hvalue : forall r r' : result DataFrame,
             match r with
             | Ok o => lookup col_value (columns o)
             | Err _ => None
             end
             <> match r' with
                | Ok o => lookup col_value (columns o)
                | Err _ => None
                end ->
             r <> r').
  { intros r r' Hne ->. apply Hne. reflexivity. }
  split; [apply perm_swap |].
  split; [repeat constructor |].
  split; [reflexivity |].
  split.
  - apply Hvalue. intros H. lazy in H. injection H as H. lra.
  - intros pos Hp Hs.
    pose proof (Permutation_length Hp) as Hlen.
    pose proof (Permutation_NoDup (Permutation_sym Hp)
                  (seq_NoDup 3 0)) as Hnd.
    destruct pos as [| p0 [| p1 [| p2 [| p3 pos]]]]; try discriminate.
    assert (H0 : In p0 [0; 1; 2])
      by (apply (Permutation_in _ Hp); simpl; auto).
    assert (H1 : In p1 [0; 1; 2])
      by (apply (Permutation_in _ Hp); simpl; auto).
    assert (H2 : In p2 [0; 1; 2])
      by (apply (Permutation_in _ Hp); simpl; auto).
    inversion Hnd as [| ? ? Hn0 Hnd0]; subst.
    inversion Hnd0 as [| ? ? Hn1 Hnd1]; subst.
    apply Sorted_inv in Hs. destruct Hs as [Hs Hh0].
    apply Sorted_inv in Hs. destruct Hs as [_ Hh1].
    apply HdRel_inv in Hh0. apply HdRel_inv in Hh1.
    unfold odate_le in Hh0, Hh1.
    simpl in H0, H1, H2, Hn0, Hn1.
    destruct H0 as [<- | [<- | [<- | []]]];
      destruct H1 as [<- | [<- | [<- | []]]];
      destruct H2 as [<- | [<- | [<- | []]]];
      try (exfalso; apply Hn0; auto; fail);
      try (exfalso; apply Hn1; auto; fail);
      try (simpl in Hh0; discriminate);
      try (simpl in Hh1; discriminate);
      apply Hvalue; intros H; lazy in H; injection H as H; lra.
Qed.





(** * Further properties *)

(** ** Rows without a usable value *)

Lemma permutation_filter (A : Type) (p : A -> bool) (l l' : list A) :
  Permutation l l' -> Permutation (filter p l) (filter p l').
Proof.
  induction 1 as [| x l l' _ IH | x y l | l l' l'' _ IH1 _ IH2]; simpl.
  - constructor.
  - destruct (p x); [constructor |]; exact IH.
  - destruct (p x), (p y); try apply Permutation_refl. apply perm_swap.
  - eapply Permutation_trans; eassumption.
Qed.

Lemma filter_positive_dropna (l : RawFrame) :
  filter positive (dropna_value l) = filter positive l.
Proof.
  unfold dropna_value. induction l as [| r l IH]; simpl; [reflexivity |].
  unfold positive at 2. destruct (raw_value r) eqn:E; simpl.
  - unfold positive at 1. rewrite E, IH. reflexivity.
  - exact IH.
Qed.

Lemma filter_idempotent (A : Type) (p : A -> bool) (l : list A) :
  filter p (filter p l) = filter p l.
Proof.
  induction l as [| a l IH]; simpl; [reflexivity |].
  destruct (p a) eqn:E; simpl; [rewrite E, IH; reflexivity | exact IH].
Qed.

(** Lines 38-43 leave the rows with a positive value, rearranged. *)
Lemma clean_perm (df : RawFrame) : Permutation (clean df) (filter positive df).
Proof.
  unfold clean. rewrite filter_positive_dropna.
  apply permutation_filter, sort_values_perm.
Qed.

(** X1.  Rows whose value is missing, not numeric, zero or negative have no
    influence on the result, wherever they stand in the input and whatever
    their dates: when the other rows have their dates present and pairwise
    distinct, the call returns what it returns for the table without the
    unusable rows, so a log-return bridges the gap they leave. *)
Theorem unusable_rows_ignored (df : RawFrame) (lags windows : list Z) :
  distinct_dates (filter positive df) ->
  buildFeatureMatrix df lags windows
  = buildFeatureMatrix (filter positive df) lags windows.
Proof.
  intros Hd.
  assert (Hclean : clean df = clean (filter positive df)).
  { pose proof (clean_perm (filter positive df)) as Hu.
    rewrite filter_idempotent in Hu.
    apply date_order_unique.
    - eapply Permutation_trans; [apply clean_perm |].
      apply Permutation_sym. exact Hu.
    - apply clean_sorted.
    - apply clean_sorted.
    - apply (distinct_dates_perm (Permutation_sym Hu) Hd). }
  unfold buildFeatureMatrix. rewrite Hclean. reflexivity.
Qed.

Lemma unusable_rows_ignored_witness :
  buildFeatureMatrix dirty7 [1%Z] [2%Z]
  = buildFeatureMatrix series5 [1%Z] [2%Z].
Proof.
  apply (@unusable_rows_ignored dirty7 [1%Z] [2%Z]).
  split.
  - simpl. repeat constructor; simpl; intuition discriminate.
  - simpl. repeat constructor; discriminate.
Defined.

(** ** Nothing missing is returned *)

(** X2.  The returned table has no missing value: every date is present
    and every cell of every column holds a number. *)
Theorem no_missing_value_returned
  (df : RawFrame) (lags windows : list Z) (out : DataFrame) :
  buildFeatureMatrix df lags windows = Ok out ->
  Forall (fun d => notnat d = true) (date out) /\
  forall c s,
    lookup c (columns out) = Some s -> Forall (fun x => notna x = true) s.
Proof.
  intros Hb.
  destruct (buildFeatureMatrix_inv _ _ _ Hb) as (pre & _ & -> & _).
  split.
  - simpl. apply Forall_forall. intros d Hin. unfold take in Hin.
    apply in_map_iff in Hin. destruct Hin as (t & <- & Ht).
    unfold complete_rows in Ht. apply filter_In in Ht.
    destruct Ht as [_ Hc]. unfold row_complete in Hc.
    apply andb_prop in Hc. apply Hc.
  - intros c s Hc. rewrite lookup_dropna in Hc.
    destruct (lookup c (columns pre)) as [s' |] eqn:Hs'; [| discriminate].
    simpl in Hc. injection Hc as <-.
    apply Forall_forall. intros x Hin. unfold take in Hin.
    apply in_map_iff in Hin. destruct Hin as (t & <- & Ht).
    unfold complete_rows in Ht. apply filter_In in Ht.
    destruct Ht as [_ Hrc]. unfold row_complete in Hrc.
    apply andb_prop in Hrc. destruct Hrc as [_ Hall].
    rewrite forallb_forall in Hall.
    apply (Hall (c, s')). apply lookup_in; exact Hs'.
Qed.

Lemma no_missing_value_returned_witness :
  exists out,
    buildFeatureMatrix shuffled5 [1%Z] [2%Z] = Ok out /\
    Forall (fun d => notnat d = true) (date out).
Proof.
  destruct (buildFeatureMatrix shuffled5 [1%Z] [2%Z]) as [out | e] eqn:Hb;
    [| vm_compute in Hb; discriminate].
  exists out. split; [reflexivity |].
  apply (@no_missing_value_returned shuffled5 [1%Z] [2%Z] out Hb).
Defined.

(** ** Which columns are returned *)

(** X3.  The returned table has a column [r_lag_k] exactly for the lags
    asked for, [r_roll_mean_w] and [r_roll_std_w] exactly for the windows
    asked for, besides [value], [log_price], [log_return] and
    [y_next_return]; no name occurs twice, even when a lag or a window is
    asked for twice. *)
Theorem returned_columns
  (df : RawFrame) (lags windows : list Z) (out : DataFrame) :
  buildFeatureMatrix df lags windows = Ok out ->
  (forall c, lookup c (columns out) <> None <-> requested lags windows c) /\
  NoDup (map fst (columns out)).
Proof.
  intros Hb.
  destruct (buildFeatureMatrix_inv _ _ _ Hb)
    as (pre & _ & -> & _ & _ & _ & Hn & Hc).
  split.
  - intros c. rewrite lookup_dropna, Hc.
    destruct c; simpl; try (split; [trivial | discriminate]).
    + rewrite <- mem_In. destruct (mem k lags); simpl;
        split; try discriminate; try reflexivity; intros H; contradiction.
    + rewrite <- mem_In. destruct (mem w windows); simpl;
        split; try discriminate; try reflexivity; intros H; contradiction.
    + rewrite <- mem_In. destruct (mem w windows); simpl;
        split; try discriminate; try reflexivity; intros H; contradiction.
  - simpl. rewrite map_map. simpl. exact Hn.
Qed.

Lemma returned_columns_witness :
  exists out,
    buildFeatureMatrix series5 [1; 1]%Z [2%Z] = Ok out /\
    lookup (r_lag 1) (columns out) <> None /\
    NoDup (map fst (columns out)).
Proof.
  destruct (buildFeatureMatrix series5 [1; 1]%Z [2%Z]) as [out | e] eqn:Hb;
    [| vm_compute in Hb; discriminate].
  destruct (@returned_columns series5 [1; 1]%Z [2%Z] out Hb) as [Hreq Hnd].
  exists out. split; [reflexivity |]. split; [| exact Hnd].
  apply Hreq. simpl. left; reflexivity.
Defined.

(** ** How many rows are returned *)

(** X4.  For a validated series of [n] rows, positive lags and windows of
    at least 2, the call returns [n - 1 - max (max lags + 1) (max windows)]
    rows; a series too short for the request gives a table without rows,
    not an error. *)
Theorem returned_row_count (df : RawFrame) (lags windows : list Z) :
  validated df = true ->
  (forall k, In k lags -> (1 <= k)%Z) ->
  (forall w, In w windows -> (2 <= w)%Z) ->
  exists out,
    buildFeatureMatrix df lags windows = Ok out /\
    nrows out = length df - 1 - first_complete lags windows /\
    (length df < first_complete lags windows + 2 -> nrows out = 0).
Proof.
  intros Hv Hlags Hwin.
  assert (Hnn : forallb nonneg windows = true).
  { apply forallb_forall. intros w Hw. specialize (Hwin w Hw).
    apply Z.leb_le. lia. }
  destruct (@add_features_ok df lags windows Hnn) as (pre & Hpre & _).
  exists (reset_index (dropna pre)).
  assert (Hrows : nrows (reset_index (dropna pre))
                  = length df - 1 - first_complete lags windows).
  { rewrite nrows_dropna.
    rewrite (@complete_rows_interval df lags windows pre Hv Hlags Hwin Hpre).
    apply length_seq. }
  split; [| split].
  - unfold buildFeatureMatrix. rewrite (clean_validated _ Hv), Hpre.
    reflexivity.
  - exact Hrows.
  - intros Hshort. rewrite Hrows. lia.
Qed.

Lemma returned_row_count_witness :
  exists out,
    buildFeatureMatrix series5 [1%Z] [6%Z] = Ok out /\ nrows out = 0.
Proof.
  assert (Hl : forall k, In k [1%Z] -> (1 <= k)%Z)
    by (intros k [<- | []]; lia).
  assert (Hw : forall w, In w [6%Z] -> (2 <= w)%Z)
    by (intros w [<- | []]; lia).
  destruct (@returned_row_count series5 [1%Z] [6%Z] eq_refl Hl Hw)
    as (out & Hb & _ & Hshort).
  exists out. split; [exact Hb |]. apply Hshort. simpl. lia.
Defined.

(** ** What the features are made of *)

(** X5.  For a validated series and a positive lag [k], the feature
    [r_lag_k] of the returned row that was row [t] of the series is
    [ln value[t-k] - ln value[t-k-1]], with [t-k-1 >= 0]: it is made of
    observations strictly before row [t]. *)
Theorem lag_feature_from_the_past
  (df : RawFrame) (lags windows : list Z) (out : DataFrame) (k : Z) :
  validated df = true ->
  buildFeatureMatrix df lags windows = Ok out ->
  In k lags -> (1 <= k)%Z ->
  exists (pre : DataFrame) (s : Series),
    add_features (frame_of df) lags windows = Ok pre /\
    out = reset_index (dropna pre) /\
    lookup (r_lag k) (columns out) = Some s /\
    forall i, i < nrows out ->
      let t := nth i (complete_rows pre) 0 in
      Z.to_nat k + 1 <= t /\
      cell s i
      = Some (ln (value_at df (t - Z.to_nat k))
              - ln (value_at df (t - Z.to_nat k - 1)))%R.
Proof.
  intros Hv Hb Hk Hpos1.
  destruct (buildFeatureMatrix_inv _ _ _ Hb)
    as (pre & Hpre & Hout & Hnn & Hi & Hd & Hn & Hc).
  rewrite (clean_validated _ Hv) in *.
  pose proof (validated_positive _ Hv) as Hpos.
  exists pre, (take None (shift k (log_return df)) (complete_rows pre)).
  split; [exact Hpre |]. split; [exact Hout |].
  assert (Hmem : mem k lags = true) by (apply mem_In; exact Hk).
  split; [rewrite Hout, lookup_dropna, Hc; simpl; rewrite Hmem; reflexivity |].
  intros i Hlt t. rewrite Hout, nrows_dropna in Hlt.
  destruct (complete_rows_in pre Hlt) as [Htn Hrc]. fold t in Htn, Hrc.
  rewrite (nrows_pre _ _ Hi) in Htn.
  rewrite (@row_complete_spec df lags windows pre Hpos Hd Hn Hc t Htn) in Hrc.
  apply andb_prop in Hrc. destruct Hrc as [_ Hca].
  unfold complete_at in Hca. rewrite !andb_true_iff in Hca.
  destruct Hca as [[_ Hl] _]. rewrite forallb_forall in Hl.
  specialize (Hl k Hk). apply andb_prop in Hl. destruct Hl as [Hl1 _].
  apply Z.leb_le in Hl1.
  split; [lia |].
  unfold cell at 1. rewrite nth_take by exact Hlt. fold t.
  fold (cell (shift k (log_return df)) t).
  rewrite cell_shift by (rewrite length_log_return; exact Htn).
  rewrite (cellZ_log_return _ Hpos).
  destruct (Z.leb_spec 1 (Z.of_nat t - k)); [| lia].
  destruct (Z.ltb_spec (Z.of_nat t - k) (Z.of_nat (length df))); [| lia].
  simpl. unfold log_return_at.
  replace (Z.to_nat (Z.of_nat t - k)) with (t - Z.to_nat k) by lia.
  reflexivity.
Qed.

Lemma lag_feature_from_the_past_witness :
  exists out s,
    buildFeatureMatrix series5 [1%Z] [2%Z] = Ok out /\
    lookup (r_lag 1) (columns out) = Some s /\
    cell s 0 = Some (ln (value_at series5 1) - ln (value_at series5 0))%R.
Proof.
  destruct (buildFeatureMatrix series5 [1%Z] [2%Z]) as [out | e] eqn:Hb;
    [| vm_compute in Hb; discriminate].
  destruct (@lag_feature_from_the_past series5 [1%Z] [2%Z] out 1%Z
              eq_refl Hb (or_introl eq_refl) ltac:(lia))
    as (pre & s & Hpre & Hout & Hs & Hrows).
  assert (Hk : complete_rows pre = [2; 3]).
  { lazy in Hpre. injection Hpre as <-. reflexivity. }
  assert (Hn : nrows out = 2) by (rewrite Hout, nrows_dropna, Hk; reflexivity).
  exists out, s. split; [reflexivity |]. split; [exact Hs |].
  assert (H0 : 0 < nrows out) by (rewrite Hn; lia).
  destruct (Hrows 0 H0) as [_ Hcell]. rewrite Hk in Hcell. exact Hcell.
Defined.

Lemma Rsum_returns_window (rows : RawFrame) (w t : nat) :
  w <= t ->
  Rsum (returns_window rows w t)
  = (ln (value_at rows t) - ln (value_at rows (t - w)))%R.
Proof.
  induction w as [| w IH]; intros Hw.
  - unfold returns_window. simpl. rewrite Nat.sub_0_r. ring.
  - unfold returns_window in *.
    replace (S t - S w) with (t - w) by lia.
    simpl seq. simpl map. simpl Rsum.
    replace (S (t - w)) with (S t - w) by lia.
    fold (Rsum (map (log_return_at rows) (seq (S t - w) w))).
    rewrite IH by lia. unfold log_return_at.
    replace (t - w - 1) with (t - S w) by lia. ring.
Qed.

(** X6.  The rolling mean telescopes: where it is defined, [r_roll_mean_w]
    at row [t] of the cleaned table is the log-return over [w] rows divided
    by [w], [(ln value[t] - ln value[t-w]) / w]; the values in between
    cancel. *)
Theorem rolling_mean_telescopes
  (df : RawFrame) (lags windows : list Z) (pre : DataFrame) (w : Z) (t : nat) :
  add_features (frame_of (clean df)) lags windows = Ok pre ->
  In w windows -> (1 <= w)%Z ->
  Z.to_nat w <= t -> t < length (clean df) ->
  exists m,
    lookup (r_roll_mean w) (columns pre) = Some m /\
    cell m t
    = Some ((ln (value_at (clean df) t)
             - ln (value_at (clean df) (t - Z.to_nat w))) / IZR w)%R.
Proof.
  intros Hpre Hin Hw Hwt Ht.
  pose proof (clean_positive df) as Hpos.
  destruct (forallb nonneg windows) eqn:Hnn;
    [| rewrite (@add_features_negative (clean df) lags windows Hnn) in Hpre;
       discriminate].
  destruct (@add_features_ok (clean df) lags windows Hnn)
    as (pre' & Hpre' & _ & _ & _ & Hc).
  rewrite Hpre in Hpre'. injection Hpre' as <-.
  apply mem_In in Hin.
  exists (rolling_mean (roll (clean df) w)).
  split; [rewrite Hc; simpl; rewrite Hin; reflexivity |].
  rewrite (cell_rolling_mean _ _ Hpos).
  destruct (Nat.leb_spec 1 (Z.to_nat w)); [| lia].
  destruct (Nat.leb_spec (Z.to_nat w) t); [| lia].
  destruct (Nat.ltb_spec t (length (clean df))); [| lia].
  simpl. unfold mean.
  rewrite length_returns_window, INR_window by lia.
  rewrite Rsum_returns_window by exact Hwt. reflexivity.
Qed.

Lemma rolling_mean_telescopes_witness :
  exists pre m,
    add_features (frame_of (clean series5)) [1%Z] [2%Z] = Ok pre /\
    lookup (r_roll_mean 2) (columns pre) = Some m /\
    cell m 3
    = Some ((ln (value_at (clean series5) 3)
             - ln (value_at (clean series5) 1)) / 2)%R.
Proof.
  destruct (add_features (frame_of (clean series5)) [1%Z] [2%Z])
    as [pre | e] eqn:Hpre; [| vm_compute in Hpre; discriminate].
  assert (Hwt : Z.to_nat 2 <= 3) by (simpl; lia).
  assert (Ht : 3 < length (clean series5)) by (vm_compute; lia).
  destruct (@rolling_mean_telescopes series5 [1%Z] [2%Z] pre 2%Z 3 Hpre
              (or_introl eq_refl) ltac:(lia) Hwt Ht)
    as (m & Hm & Hcell).
  exists pre, m. split; [reflexivity |]. split; [exact Hm | exact Hcell].
Defined.

(** ** The split for any fraction *)

(** X7.  Whenever line 30 yields a test count, for a fraction outside
    (0,1) as well, and whatever the table, also an empty one, [timeSplit]
    loses and repeats nothing: the table is the train part followed by the
    test part, index, dates and columns alike; and a table with at least
    one row never gets an empty test part. *)
Theorem time_split_partition
  (float_mul : Z -> Q -> Q) (df : DataFrame) (test_size : Q) :
  let train := fst (timeSplit float_mul df test_size) in
  let test := snd (timeSplit float_mul df test_size) in
  index df = index train ++ index test /\
  date df = date train ++ date test /\
  (forall c s,
      lookup c (columns df) = Some s ->
      exists a b,
        lookup c (columns train) = Some a /\
        lookup c (columns test) = Some b /\
        s = a ++ b) /\
  nrows train + nrows test = nrows df /\
  (1 <= nrows df -> 1 <= nrows test).
Proof.
  intros train test. unfold train, test, timeSplit, iloc_to, iloc_from.
  simpl fst. simpl snd.
  fold (n_test float_mul (nrows df) test_size).
  set (k := n_test float_mul (nrows df) test_size).
  set (m := slice_bound (nrows df) (Z.of_nat (nrows df) - k)).
  assert (Hk : (1 <= k)%Z) by (unfold k, n_test; lia).
  assert (Hm : m <= nrows df) by apply slice_bound_le.
  assert (Hhead : nrows (head_rows m df) = m).
  { unfold nrows at 1. simpl. rewrite length_firstn. fold (nrows df). lia. }
  assert (Htail : nrows (tail_rows m df) = nrows df - m).
  { unfold nrows at 1. simpl. rewrite length_skipn. reflexivity. }
  split; [apply head_tail_index |]. split; [apply head_tail_date |].
  split; [intros c s; apply head_tail_column |].
  rewrite Hhead, Htail. split; [lia |].
  intros Hn. unfold m, slice_bound.
  destruct (Z.ltb_spec (Z.of_nat (nrows df) - k) 0); lia.
Qed.

(** X8.  When the test count [max(1, round(n * test_size))] exceeds the
    number [n] of rows, the negative slice bound counts from the end: the
    test part gets [n_test - n] rows, at most [n], and the train part the
    rest; only from [n_test >= 2 n] on is the train part empty. *)
Theorem time_split_wraps
  (float_mul : Z -> Q -> Q) (df : DataFrame) (test_size : Q) :
  (Z.of_nat (nrows df) < n_test float_mul (nrows df) test_size)%Z ->
  let excess :=
    Z.to_nat (n_test float_mul (nrows df) test_size - Z.of_nat (nrows df)) in
  nrows (snd (timeSplit float_mul df test_size)) = Nat.min (nrows df) excess /\
  nrows (fst (timeSplit float_mul df test_size))
  = nrows df - Nat.min (nrows df) excess.
Proof.
  intros Hk excess. unfold timeSplit, iloc_to, iloc_from.
  simpl fst. simpl snd.
  fold (n_test float_mul (nrows df) test_size).
  unfold excess. clear excess.
  set (k := n_test float_mul (nrows df) test_size) in *.
  assert (Hm : slice_bound (nrows df) (Z.of_nat (nrows df) - k)
               = nrows df - Nat.min (nrows df) (Z.to_nat (k - Z.of_nat (nrows df)))).
  { unfold slice_bound.
    destruct (Z.ltb_spec (Z.of_nat (nrows df) - k) 0); lia. }
  rewrite Hm. split.
  - unfold nrows at 1. simpl. rewrite length_skipn. fold (nrows df). lia.
  - unfold nrows at 1. simpl. rewrite length_firstn. fold (nrows df). lia.
Qed.

Lemma time_split_wraps_witness :
  n_test exact_mul (nrows table10) (3 # 2) = 15%Z /\
  nrows (snd (timeSplit exact_mul table10 (3 # 2))) = 5 /\
  nrows (fst (timeSplit exact_mul table10 (3 # 2))) = 5.
Proof.
  split; [reflexivity |].
  apply (@time_split_wraps exact_mul table10 (3 # 2)). reflexivity.
Defined.

(** ** Training and evaluation *)

Lemma evaluate_inv (y_true y_pred : list R) (mae rmse : R) :
  evaluate y_true y_pred = Ok (mae, rmse) ->
  length y_true = length y_pred /\ y_true <> [] /\
  mae = mean (zip_with (fun t p => Rabs (p - t)) y_true y_pred) /\
  rmse = sqrt (mean (zip_with (fun t p => ((t - p) * (t - p))%R)
                              y_true y_pred)).
Proof.
  unfold evaluate, mean_absolute_error, mean_squared_error, check_targets.
  destruct (Nat.eqb_spec (length y_true) (length y_pred)) as [Hlen | Hlen];
    [| discriminate].
  destruct (Nat.ltb_spec 0 (length y_true)) as [Hn | Hn]; [| discriminate].
  simpl. intros [= <- <-]. repeat split; try assumption.
  intros ->. simpl in Hn. lia.
Qed.


Lemma mapM_ok (A B : Type) (f : A -> result B) (l : list A) (l' : list B) :
  mapM f l = Ok l' -> Forall2 (fun a b => f a = Ok b) l l'.
Proof.
  revert l'. induction l as [| a l IH]; simpl; intros l' H.
  - injection H as <-. constructor.
  - destruct (f a) as [b | e] eqn:Ha; [| discriminate]. simpl in H.
    destruct (mapM f l) as [bs | e]; [| discriminate]. simpl in H.
    injection H as <-. constructor; [exact Ha | apply IH; reflexivity].
Qed.

Lemma mapM_succeeds (A B : Type) (f : A -> result B) (l : list A) :
  (forall a, In a l -> exists b, f a = Ok b) -> exists l', mapM f l = Ok l'.
Proof.
  induction l as [| a l IH]; simpl; intros H.
  - exists []. reflexivity.
  - destruct (H a (or_introl eq_refl)) as [b Hb]. rewrite Hb. simpl.
    destruct IH as [bs Hbs]; [intros x Hx; apply H; right; exact Hx |].
    rewrite Hbs. simpl. exists (b :: bs). reflexivity.
Qed.

Lemma finite_ok (s : Series) (xs : list R) :
  finite s = Ok xs -> s = map Some xs.
Proof.
  intros H. apply mapM_ok in H.
  induction H as [| c x s xs Hc _ IH]; simpl; [reflexivity |].
  destruct c; [| discriminate]. injection Hc as <-. rewrite IH. reflexivity.
Qed.

Lemma check_array_ok (X : list Series) (n : nat) (X' : list (list R)) :
  check_array X n = Ok X' ->
  1 <= n /\ 1 <= length X /\ Forall2 (fun s xs => s = map Some xs) X X'.
Proof.
  unfold check_array.
  destruct (Nat.eqb_spec n 0); [discriminate |].
  destruct (Nat.eqb_spec (length X) 0); [discriminate |]. simpl.
  intros H. split; [lia |]. split; [lia |].
  apply mapM_ok in H.
  clear n0 n1. induction H as [| s xs X0 X0' Hs _ IH].
  - constructor.
  - constructor; [apply finite_ok; exact Hs | exact IH].
Qed.

Lemma length_insert_pos ds p l : length (insert_pos ds p l) = S (length l).
Proof.
  induction l as [| q l IH]; simpl; [reflexivity |].
  destruct (date_leb (nth p ds None) (nth q ds None)); simpl; lia.
Qed.

Lemma length_fold_insert_pos ds (l : list nat) :
  length (fold_right (insert_pos ds) [] l) = length l.
Proof.
  induction l as [| p l IH]; simpl; [reflexivity |].
  rewrite length_insert_pos, IH. reflexivity.
Qed.

Lemma length_argsort (ds : list (option Z)) : length (argsort ds) = length ds.
Proof.
  unfold argsort. rewrite length_fold_insert_pos. apply length_seq.
Qed.

Lemma nrows_take_rows (df : DataFrame) (pos : list nat) :
  nrows (take_rows df pos) = length pos.
Proof. unfold nrows. simpl. apply length_take. Qed.

Lemma take_rows_well_formed (df : DataFrame) (pos : list nat) :
  well_formed (take_rows df pos).
Proof.
  split.
  - rewrite nrows_take_rows. simpl. apply length_take.
  - intros c s Hin. rewrite nrows_take_rows. simpl in Hin.
    apply in_map_iff in Hin. destruct Hin as ([c' s'] & [= <- <-] & _).
    apply length_take.
Qed.

Lemma nrows_sort_frame (df : DataFrame) :
  well_formed df -> nrows (sort_frame df) = nrows df.
Proof.
  intros [Hd _]. unfold sort_frame.
  rewrite nrows_take_rows, length_argsort. exact Hd.
Qed.

Lemma names_take_rows (df : DataFrame) (pos : list nat) :
  map fst (columns (take_rows df pos)) = map fst (columns df).
Proof. simpl. rewrite map_map. reflexivity. Qed.

Lemma feature_columns_sort_frame (df : DataFrame) :
  feature_columns (sort_frame df) = feature_columns df.
Proof.
  unfold feature_columns, sort_frame. rewrite names_take_rows. reflexivity.
Qed.

Lemma lookup_take_rows (df : DataFrame) (pos : list nat) (c : column) :
  lookup c (columns (take_rows df pos))
  = option_map (fun s => take None s pos) (lookup c (columns df)).
Proof.
  simpl. apply (lookup_map_columns (fun s => take None s pos)).
Qed.

Lemma lookup_head_rows (m : nat) (df : DataFrame) (c : column) :
  lookup c (columns (head_rows m df))
  = option_map (firstn m) (lookup c (columns df)).
Proof. simpl. apply (lookup_map_columns (firstn m)). Qed.

Lemma lookup_tail_rows (m : nat) (df : DataFrame) (c : column) :
  lookup c (columns (tail_rows m df))
  = option_map (skipn m) (lookup c (columns df)).
Proof. simpl. apply (lookup_map_columns (skipn m)). Qed.

Lemma lookup_name (c : column) cs :
  In c (map fst cs) -> exists s, lookup c cs = Some s.
Proof.
  induction cs as [| [c' s'] r IH]; simpl; [intros [] |].
  intros H. destruct (column_eqb c c') eqn:E; [exists s'; reflexivity |].
  destruct H as [-> | H]; [rewrite column_eqb_refl in E; discriminate |].
  apply IH; exact H.
Qed.

Lemma lookup_some_name (c : column) (s : Series) cs :
  lookup c cs = Some s -> In c (map fst cs).
Proof.
  intros H. apply lookup_in in H.
  change c with (fst (c, s)). apply in_map; exact H.
Qed.

Lemma feature_columns_in (df : DataFrame) (c : column) :
  In c (feature_columns df) <->
  lookup c (columns df) <> None /\ drop_cols c = false.
Proof.
  unfold feature_columns. rewrite filter_In, negb_true_iff. split.
  - intros [Hin Hd]. split; [| exact Hd].
    destruct (lookup_name _ _ Hin) as [s Hs]. rewrite Hs. discriminate.
  - intros [Hl Hd]. split; [| exact Hd].
    destruct (lookup c (columns df)) as [s |] eqn:E; [| contradiction].
    apply (lookup_some_name _ _ E).
Qed.

(** The feature columns can always be selected from a part of the table. *)
Lemma select_features (df part : DataFrame) (g : Series -> Series) :
  (forall c, lookup c (columns part) = option_map g (lookup c (columns df))) ->
  exists X,
    select part (feature_columns df) = Ok X /\
    length X = length (feature_columns df) /\
    forall s, In s X -> exists c s', In (c, s') (columns df) /\ s = g s'.
Proof.
  intros Hpart.
  destruct (@mapM_succeeds _ _ (getitem part) (feature_columns df))
    as [X HX].
  { intros c Hc. apply feature_columns_in in Hc. destruct Hc as [Hc _].
    unfold getitem. rewrite Hpart.
    destruct (lookup c (columns df)) as [s |]; [| contradiction].
    exists (g s). reflexivity. }
  exists X. split; [exact HX |].
  pose proof (mapM_ok _ _ HX) as HF. split.
  - symmetry. eapply Forall2_length. exact HF.
  - intros s Hs. clear HX. induction HF as [| c s0 cs X Hc _ IH];
      [contradiction |].
    destruct Hs as [-> | Hs]; [| apply IH; exact Hs].
    unfold getitem in Hc. rewrite Hpart in Hc.
    destruct (lookup c (columns df)) as [s' |] eqn:E; [| discriminate].
    simpl in Hc. injection Hc as <-.
    exists c, s'. split; [apply lookup_in; exact E | reflexivity].
Qed.

Lemma nrows_head_rows (m : nat) (df : DataFrame) :
  nrows (head_rows m df) = Nat.min m (nrows df).
Proof. unfold nrows. simpl. apply length_firstn. Qed.

Lemma nrows_tail_rows (m : nat) (df : DataFrame) :
  nrows (tail_rows m df) = nrows df - m.
Proof. unfold nrows. simpl. apply length_skipn. Qed.

Section TrainingProperties.

Variable float_mul : Z -> Q -> Q.
Variable Model : Type.
Variable fit : list (list R) -> list R -> Model.
Variable predict : Model -> list (list R) -> list R.

(** Everything a successful run of [main] went through. *)
Lemma main_inv (df : DataFrame) (test_size : Q) (a : Artifacts) :
  TrainEval.main float_mul fit predict df test_size = Ok a ->
  let sorted := sort_frame df in
  let train := fst (timeSplit float_mul sorted test_size) in
  let test := snd (timeSplit float_mul sorted test_size) in
  exists X_train y_train X_test y_test Xtr ytr Xte yte m,
    select train (feature_columns sorted) = Ok X_train /\
    lookup y_next_return (columns train) = Some y_train /\
    select test (feature_columns sorted) = Ok X_test /\
    lookup y_next_return (columns test) = Some y_test /\
    check_array X_train (nrows train) = Ok Xtr /\
    finite y_train = Ok ytr /\
    check_array X_test (nrows test) = Ok Xte /\
    finite y_test = Ok yte /\
    evaluate yte (predict (fit Xtr ytr) Xte) = Ok m /\
    a = {| metrics :=
             {| rows_total := nrows sorted;
                rows_train := nrows train;
                rows_test := nrows test;
                metric_mae := fst m;
                metric_rmse := snd m;
                test_period_start := date_min (date test);
                test_period_end := date_max (date test);
                n_features := length (feature_columns sorted);
                features_used := feature_columns sorted |};
           pred_date := date test;
           pred_y_true := yte;
           pred_y_pred := predict (fit Xtr ytr) Xte |}.
Proof.
  intros H sorted train test. unfold TrainEval.main in H.
  fold sorted in H. fold train in H. fold test in H.
  destruct (select train (feature_columns sorted)) as [X_train | e] eqn:E1;
    [| discriminate]. cbn [bind] in H.
  unfold getitem at 1 in H.
  destruct (lookup y_next_return (columns train)) as [y_train |] eqn:E2;
    [| discriminate]. cbn [bind] in H.
  destruct (select test (feature_columns sorted)) as [X_test | e] eqn:E3;
    [| discriminate]. cbn [bind] in H.
  unfold getitem at 1 in H.
  destruct (lookup y_next_return (columns test)) as [y_test |] eqn:E4;
    [| discriminate]. cbn [bind] in H.
  destruct (check_array X_train (nrows train)) as [Xtr | e] eqn:E5;
    [| discriminate]. cbn [bind] in H.
  destruct (finite y_train) as [ytr | e] eqn:E6; [| discriminate].
  cbn [bind] in H.
  destruct (check_array X_test (nrows test)) as [Xte | e] eqn:E7;
    [| discriminate]. cbn [bind] in H.
  destruct (finite y_test) as [yte | e] eqn:E8; [| discriminate].
  cbn [bind] in H.
  destruct (evaluate yte (predict (fit Xtr ytr) Xte)) as [m | e] eqn:E9;
    [| discriminate]. cbn [bind] in H.
  injection H as <-.
  exists X_train, y_train, X_test, y_test, Xtr, ytr, Xte, yte, m.
  repeat split; assumption.
Qed.

Lemma time_split_parts_any (df : DataFrame) (test_size : Q) :
  exists m,
    m <= nrows df /\
    fst (timeSplit float_mul df test_size) = head_rows m df /\
    snd (timeSplit float_mul df test_size) = tail_rows m df.
Proof.
  eexists. split; [| split; reflexivity]. apply slice_bound_le.
Qed.

(** X11.  What a successful run of [main] writes is consistent: the row
    counts of the two parts add up to [rows_total], which is the number of
    rows read; neither part is empty; [n_features] is the length of
    [features_used] and at least 1; and the predictions table has one
    date, one [y_true] and one [y_pred] per test row. *)
Theorem main_artifacts_consistent
  (df : DataFrame) (test_size : Q) (a : Artifacts) :
  well_formed df ->
  TrainEval.main float_mul fit predict df test_size = Ok a ->
  rows_total (metrics a) = nrows df /\
  rows_train (metrics a) + rows_test (metrics a) = rows_total (metrics a) /\
  1 <= rows_train (metrics a) /\
  1 <= rows_test (metrics a) /\
  n_features (metrics a) = length (features_used (metrics a)) /\
  1 <= n_features (metrics a) /\
  length (pred_date a) = rows_test (metrics a) /\
  length (pred_y_true a) = rows_test (metrics a) /\
  length (pred_y_pred a) = rows_test (metrics a).
Proof.
  intros Hwf Hmain.
  destruct (main_inv _ _ Hmain)
    as (X_train & y_train & X_test & y_test & Xtr & ytr & Xte & yte & m
        & E1 & E2 & E3 & E4 & E5 & E6 & E7 & E8 & E9 & Ha).
  destruct (time_split_parts_any (sort_frame df) test_size)
    as (k & Hk & Htrain & Htest).
  rewrite Htrain, Htest in *. subst a. clear Hmain.
  cbn [metrics rows_total rows_train rows_test n_features features_used
       pred_date pred_y_true pred_y_pred].
  pose proof (take_rows_well_formed df (argsort (date df))) as [Hd Hc].
  fold (sort_frame df) in Hd, Hc.
  destruct (check_array_ok _ _ E5) as (Hn1 & Hf1 & _).
  destruct (check_array_ok _ _ E7) as (Hn2 & _ & _).
  rewrite nrows_head_rows in *. rewrite nrows_tail_rows in *.
  assert (Hyte : length yte = nrows (sort_frame df) - k).
  { apply finite_ok in E8. rewrite lookup_tail_rows in E4.
    destruct (lookup y_next_return (columns (sort_frame df)))
      as [s |] eqn:Es; [| discriminate].
    simpl in E4. injection E4 as <-.
    apply (f_equal (@length (option R))) in E8.
    rewrite length_skipn, length_map in E8.
    rewrite <- E8, (Hc y_next_return s (lookup_in _ _ Es)). reflexivity. }
  split; [apply nrows_sort_frame; exact Hwf |].
  split; [lia |]. split; [exact Hn1 |]. split; [exact Hn2 |].
  split; [reflexivity |].
  split.
  { apply mapM_ok in E1. apply Forall2_length in E1. rewrite E1. exact Hf1. }
  split.
  { change (date (tail_rows k (sort_frame df)))
      with (skipn k (date (sort_frame df))).
    rewrite length_skipn, Hd. reflexivity. }
  split; [exact Hyte |].
  destruct m as [mae rmse]. destruct (evaluate_inv _ _ E9) as (Hlen & _).
  rewrite <- Hlen. exact Hyte.
Qed.

(** X12.  When [main] fails.  Without a [y_next_return] column it fails
    with [KeyError].  With that column it fails with the [ValueError] of
    scikit-learn when the table has at most one row or the test part takes
    every row, since nothing is left to train on, and when the table has
    no feature column. *)
Theorem main_failures (df : DataFrame) (test_size : Q) :
  (lookup y_next_return (columns df) = None ->
   TrainEval.main float_mul fit predict df test_size = Err KeyError) /\
  (lookup y_next_return (columns df) <> None ->
   well_formed df ->
   nrows df <= 1 \/
   n_test float_mul (nrows df) test_size = Z.of_nat (nrows df) ->
   TrainEval.main float_mul fit predict df test_size = Err ValueError) /\
  (lookup y_next_return (columns df) <> None ->
   feature_columns df = [] ->
   TrainEval.main float_mul fit predict df test_size = Err ValueError).
Proof.
  set (sorted := sort_frame df).
  destruct (time_split_parts_any sorted test_size) as (k & Hk & Htrain & Htest).
  destruct (@select_features sorted (head_rows k sorted) (firstn k)
              (lookup_head_rows k sorted))
    as (X_train & HX1 & HL1 & _).
  destruct (@select_features sorted (tail_rows k sorted) (skipn k)
              (lookup_tail_rows k sorted))
    as (X_test & HX2 & _).
  assert (Htarget : lookup y_next_return (columns sorted)
                    = option_map (fun s => take None s (argsort (date df)))
                                 (lookup y_next_return (columns df)))
    by apply lookup_take_rows.
  split; [| split].
  - intros Hnone. unfold TrainEval.main. fold sorted.
    rewrite Htrain, Htest, HX1. cbn [bind].
    unfold getitem at 1. rewrite lookup_head_rows, Htarget, Hnone.
    reflexivity.
  - intros Hsome Hwf Hshort. unfold TrainEval.main. fold sorted.
    pose proof Htrain as Htrain'. rewrite Htrain, Htest, HX1. cbn [bind].
    unfold getitem at 1. rewrite lookup_head_rows, Htarget.
    destruct (lookup y_next_return (columns df)) as [s |]; [| contradiction].
    cbn [bind option_map]. rewrite HX2. cbn [bind].
    unfold getitem at 1. rewrite lookup_tail_rows, Htarget.
    cbn [bind option_map].
    assert (Hempty : nrows (head_rows k sorted) = 0).
    { rewrite <- Htrain'. unfold timeSplit, iloc_to. simpl fst.
      rewrite nrows_head_rows. unfold sorted.
      rewrite (nrows_sort_frame Hwf).
      fold (n_test float_mul (nrows df) test_size).
      assert (Hk1 : (1 <= n_test float_mul (nrows df) test_size)%Z)
        by (unfold n_test; lia).
      unfold slice_bound.
      destruct (Z.ltb_spec
                  (Z.of_nat (nrows df)
                   - n_test float_mul (nrows df) test_size) 0); lia. }
    rewrite Hempty. reflexivity.
  - intros Hsome Hnofeat. unfold TrainEval.main. fold sorted.
    rewrite Htrain, Htest, HX1. cbn [bind].
    unfold getitem at 1. rewrite lookup_head_rows, Htarget.
    destruct (lookup y_next_return (columns df)) as [s |]; [| contradiction].
    cbn [bind option_map]. rewrite HX2. cbn [bind].
    unfold getitem at 1. rewrite lookup_tail_rows, Htarget.
    cbn [bind option_map].
    assert (HX0 : length X_train = 0).
    { rewrite HL1. unfold sorted.
      rewrite feature_columns_sort_frame, Hnofeat. reflexivity. }
    unfold check_array at 1. rewrite HX0.
    rewrite Nat.eqb_refl, orb_true_r. reflexivity.
Qed.

End TrainingProperties.


Lemma features4_well_formed : well_formed features4.
Proof.
  split; [reflexivity |].
  intros c s [H | [H | [H | []]]]; injection H as <- <-; reflexivity.
Qed.

Lemma main_artifacts_consistent_witness :
  exists a,
    TrainEval.main exact_mul mean_fit mean_predict features4 (1 # 4) = Ok a /\
    rows_total (metrics a) = 4 /\
    rows_train (metrics a) = 3 /\
    rows_test (metrics a) = 1 /\
    n_features (metrics a) = 1 /\
    length (pred_y_pred a) = 1.
Proof.
  destruct (TrainEval.main exact_mul mean_fit mean_predict features4 (1 # 4))
    as [a | e] eqn:Hmain; [| vm_compute in Hmain; discriminate].
  destruct (@main_artifacts_consistent exact_mul R mean_fit mean_predict
              features4 (1 # 4) a features4_well_formed Hmain)
    as (Htot & Hsum & _ & _ & _ & _ & _ & _ & Hpred).
  assert (Htest : rows_test (metrics a) = 1).
  { lazy in Hmain. injection Hmain as <-. reflexivity. }
  assert (Hfeat : n_features (metrics a) = 1).
  { lazy in Hmain. injection Hmain as <-. reflexivity. }
  exists a. split; [reflexivity |].
  split; [exact Htot |]. split; [unfold nrows in Htot; simpl in Htot; lia |].
  split; [exact Htest |]. split; [exact Hfeat |].
  rewrite Hpred. exact Htest.
Defined.

Lemma main_failures_witness :
  TrainEval.main exact_mul mean_fit mean_predict
    {| index := [0%Z]; date := [Some 19783%Z]; columns := [] |} (1 # 4)
  = Err KeyError /\
  TrainEval.main exact_mul mean_fit mean_predict features4 (9 # 10)
  = Err ValueError /\
  TrainEval.main exact_mul mean_fit mean_predict table10 (1 # 4)
  = Err ValueError.
Proof.
  split; [| split].
  - destruct (@main_failures exact_mul R mean_fit mean_predict
                {| index := [0%Z]; date := [Some 19783%Z]; columns := [] |}
                (1 # 4)) as (Hkey & _ & _).
    apply Hkey. reflexivity.
  - destruct (@main_failures exact_mul R mean_fit mean_predict
                features4 (9 # 10)) as (_ & Hempty & _).
    apply Hempty.
    + discriminate.
    + exact features4_well_formed.
    + right. reflexivity.
  - destruct (@main_failures exact_mul R mean_fit mean_predict
                table10 (1 # 4)) as (_ & _ & Hnofeat).
    apply Hnofeat; [discriminate | reflexivity].
Defined.
